(** * youtube_downloader_PYFFMPEG.py: fallback download loops and the spinner

    A shallow embedding of the download workflow of
    [youtube_downloader_PYFFMPEG.py]: the spinner (globals [spinner_running]
    and [spinner_thread], [start_spinner], [stop_spinner]), the two hooks
    handed to yt_dlp ([print_progress], [post_hook_spinner]) and the three
    download functions ([download_audio], [download_video],
    [download_video_protools]).

    yt_dlp itself is an external library.  One call of
    [yt_dlp.YoutubeDL(ydl_opts).download([url])] is modelled by what the
    program can observe of it: the hook calls it makes while the caller is
    blocked, and whether it returns or raises. *)

From Stdlib Require Import List String Ascii Bool Arith Lia.
Import ListNotations.
Open Scope string_scope.

(** ** Text *)

(** Python escapes that Rocq string literals cannot spell. *)
Definition chr (n : nat) : string := String (ascii_of_nat n) EmptyString.
Definition NL : string := chr 10.   (* \n *)
Definition CR : string := chr 13.   (* \r *)
Definition ESC : string := chr 27.  (* \033 *)

Definition C_CYAN : string := ESC ++ "[1;36m".
Definition C_GREEN : string := ESC ++ "[1;32m".
Definition C_RESET : string := ESC ++ "[0m".

(** [os.path.join(a, b)] on POSIX, for two components. *)
Definition starts_with_slash (s : string) : bool :=
  match s with
  | String c _ => Ascii.eqb c "/"%char
  | EmptyString => false
  end.

Fixpoint ends_with_slash (s : string) : bool :=
  match s with
  | EmptyString => false
  | String c EmptyString => Ascii.eqb c "/"%char
  | String _ rest => ends_with_slash rest
  end.

Definition os_path_join (a b : string) : string :=
  if starts_with_slash b then b
  else if (a =? "") || ends_with_slash a then a ++ b
  else a ++ "/" ++ b.

(** ** Exceptions *)

(** The classes the [except] clauses of the download functions tell apart.
    [yt_dlp.utils.DownloadError] derives from [Exception];
    [KeyboardInterrupt] and [SystemExit] derive from [BaseException] only. *)
Inductive ExcClass : Type :=
| DownloadError
| OtherException (name : string)
| KeyboardInterrupt
| SystemExit.

(** What went wrong inside the service.  The Python code never looks at it:
    it only sees the class and the text of the exception. *)
Inductive Cause : Type :=
| SelectorRejected
| NoMatchingStream
| NetworkFailure
| PermissionDenied
| InvalidURL
| EngineCrash
| Interrupted.

Record Exn : Type := mkExn {
  exc_class : ExcClass;
  exc_cause : Cause;
  exc_str : string        (* str(e), what an f-string prints *)
}.

(** [isinstance(e, yt_dlp.utils.DownloadError)] *)
Definition is_DownloadError (e : Exn) : bool :=
  match exc_class e with
  | DownloadError => true
  | _ => false
  end.

(** [isinstance(e, Exception)] *)
Definition is_Exception (e : Exn) : bool :=
  match exc_class e with
  | DownloadError | OtherException _ => true
  | KeyboardInterrupt | SystemExit => false
  end.

(** ** What yt_dlp is given and what it does *)

(** The dictionary yt_dlp passes to a hook.  ['status'] is always present;
    the three display strings are read with [d.get(key, default)]. *)
Record HookDict : Type := mkHookDict {
  status : string;
  _percent_str : option string;
  _speed_str : option string;
  _eta_str : option string
}.

Definition dict_get (v : option string) (default : string) : string :=
  match v with
  | Some s => s
  | None => default
  end.

(** The two functions of this file that are registered as hooks. *)
Inductive Hook : Type :=
| print_progress_hook
| post_hook_spinner_hook.

Record Postprocessor : Type := mkPostprocessor {
  key : string;
  preferredcodec : string;
  preferredquality : string
}.

Record YdlOpts : Type := mkYdlOpts {
  format : string;
  outtmpl : string;
  merge_output_format : option string;
  ffmpeg_location : option string;
  concurrent_fragment_downloads : option nat;
  noprogress : bool;
  progress_hooks : list Hook;
  postprocessors : list Postprocessor;
  postprocessor_hooks : list Hook;
  postprocessor_args : list string
}.

(** A notification sent by yt_dlp during a download: to the progress hooks
    or to the postprocessor hooks. *)
Inductive ServiceEvent : Type :=
| DownloadProgress (d : HookDict)
| PostprocessorProgress (d : HookDict).

Inductive Result : Type :=
| Returned
| Raised (e : Exn).

Record Behaviour : Type := mkBehaviour {
  events : list ServiceEvent;
  result : Result
}.

(** The external service.  Its answer may depend on the options, the URLs
    and on how many downloads were requested before (the first argument),
    which is enough to describe any sequence of answers. *)
Definition Service : Type := nat -> YdlOpts -> list string -> Behaviour.

(** ** Program state *)

(** [spinner_running], [spinner_thread]: the module globals.
    [alive]: the renderer threads ([_spinner_loop]) that have been started
    and have not terminated, by thread number; [spawned]: how many threads
    were ever started.
    [stdout]: what the main thread has written, one entry per [print].
    The frames drawn by a renderer thread depend on timing and are not
    recorded.
    [calls]: the downloads requested from yt_dlp so far, oldest first. *)
Record State : Type := mkState {
  spinner_running : bool;
  spinner_thread : option nat;
  alive : list nat;
  spawned : nat;
  stdout : list string;
  calls : list YdlOpts
}.

Definition initial_state : State :=
  {| spinner_running := false; spinner_thread := None; alive := [];
     spawned := 0; stdout := []; calls := [] |}.

(** [print(s, end=e)] and [print(s)] *)
Definition print_end (s e : string) (st : State) : State :=
  {| spinner_running := spinner_running st;
     spinner_thread := spinner_thread st;
     alive := alive st;
     spawned := spawned st;
     stdout := stdout st ++ [s ++ e];
     calls := calls st |}.

Definition print (s : string) (st : State) : State := print_end s NL st.

(** [spinner_thread.join()]: the renderer leaves its loop because
    [spinner_running] is false, and the caller waits for that. *)
Definition join (t : nat) (st : State) : State :=
  {| spinner_running := spinner_running st;
     spinner_thread := spinner_thread st;
     alive := List.remove Nat.eq_dec t (alive st);
     spawned := spawned st;
     stdout := stdout st;
     calls := calls st |}.

(** ** The spinner *)

(** One turn of the [while spinner_running] loop of [_spinner_loop], run by
    the renderer thread: the frame it writes and the next index, or [None]
    when the flag is down and the thread ends. *)
Definition frames : list string := ["   "; ".  "; ".. "; "..."].

Definition _spinner_loop_turn (running : bool) (idx : nat)
    : option (string * nat) :=
  let msg := C_CYAN ++ "Segura a onda que vai rolar" in
  if running
  then Some (CR ++ msg ++ nth idx frames "" ++ "   " ++ C_RESET,
             (idx + 1) mod List.length frames)
  else None.

Definition start_spinner (st : State) : State :=
  if spinner_running st then st
  else
    {| spinner_running := true;
       spinner_thread := Some (spawned st);
       alive := alive st ++ [spawned st];
       spawned := S (spawned st);
       stdout := stdout st;
       calls := calls st |}.

Definition FESHOW : string :=
  CR ++ C_GREEN ++ "✔ FESHOW!!!" ++ C_RESET ++ "                ".

Definition stop_spinner (st : State) : State :=
  if negb (spinner_running st) then st
  else
    let st1 :=
      {| spinner_running := false;
         spinner_thread := spinner_thread st;
         alive := alive st;
         spawned := spawned st;
         stdout := stdout st;
         calls := calls st |} in
    let st2 :=
      match spinner_thread st1 with
      | Some t => join t st1
      | None => st1
      end in
    print FESHOW st2.

(** ** The hooks *)

Definition print_progress (d : HookDict) (st : State) : State :=
  if status d =? "downloading" then
    let p := dict_get (_percent_str d) "?%" in
    let speed := dict_get (_speed_str d) "? KiB/s" in
    let eta := dict_get (_eta_str d) "? s" in
    print_end (CR ++ "Baixando: " ++ p ++ " a " ++ speed ++ ", ETA: " ++ eta)
              "" st
  else if status d =? "finished" then
    print (CR ++ "Download finalizado. Iniciando pós-processamento…       ") st
  else st.

Definition post_hook_spinner (d : HookDict) (st : State) : State :=
  if status d =? "started" then start_spinner st
  else if status d =? "finished" then stop_spinner st
  else st.

Definition call_hook (h : Hook) (d : HookDict) (st : State) : State :=
  match h with
  | print_progress_hook => print_progress d st
  | post_hook_spinner_hook => post_hook_spinner d st
  end.

Definition call_hooks (hs : list Hook) (d : HookDict) (st : State) : State :=
  fold_left (fun s h => call_hook h d s) hs st.

(** yt_dlp delivers an event to every hook registered for it. *)
Definition deliver (opts : YdlOpts) (st : State) (ev : ServiceEvent) : State :=
  match ev with
  | DownloadProgress d => call_hooks (progress_hooks opts) d st
  | PostprocessorProgress d => call_hooks (postprocessor_hooks opts) d st
  end.

Definition log_call (opts : YdlOpts) (st : State) : State :=
  {| spinner_running := spinner_running st;
     spinner_thread := spinner_thread st;
     alive := alive st;
     spawned := spawned st;
     stdout := stdout st;
     calls := calls st ++ [opts] |}.

(** ** The download functions *)

Section Downloads.

Variable ydl : Service.

(** [with yt_dlp.YoutubeDL(ydl_opts) as ydl: ydl.download(urls)]:
    the request is recorded, the hooks run for every event the service
    sends, and the call returns or raises. *)
Definition YoutubeDL_download (ydl_opts : YdlOpts) (urls : list string)
    (st : State) : Result * State :=
  let b := ydl (List.length (calls st)) ydl_opts urls in
  (result b, fold_left (deliver ydl_opts) (events b) (log_call ydl_opts st)).

(** The functions return [None] in Python; here the first component says
    whether the call returned ([None]) or let an exception out ([Some e]). *)
Definition audio_opts (output_path : string) (ffmpeg_path : option string)
    : YdlOpts :=
  {| format := "bestaudio[ext=m4a]/bestaudio/best";
     outtmpl := os_path_join output_path "%(title)s.%(ext)s";
     merge_output_format := None;
     ffmpeg_location := ffmpeg_path;
     concurrent_fragment_downloads := Some 4;
     noprogress := false;
     progress_hooks := [print_progress_hook];
     postprocessors :=
       [ {| key := "FFmpegExtractAudio";
            preferredcodec := "mp3";
            preferredquality := "192" |} ];
     postprocessor_hooks := [post_hook_spinner_hook];
     postprocessor_args := [] |}.

Definition download_audio (url output_path : string)
    (ffmpeg_path : option string) (st : State) : option Exn * State :=
  let ydl_opts := audio_opts output_path ffmpeg_path in
  let st := print (NL ++ "⏳ Baixando áudio...") st in
  match YoutubeDL_download ydl_opts [url] st with
  | (Returned, st) => (None, print "✅ Download de áudio concluído!" st)
  | (Raised e, st) =>
      if is_Exception e then
        (None,
         print (NL ++ "❌ Erro durante o download de áudio: " ++ exc_str e) st)
      else (Some e, st)
  end.

Definition format_attempts : list string :=
  [ "bv*[vcodec^=avc1][ext=mp4]+ba[ext=m4a]/b[ext=mp4]/best";
    "bestvideo[ext=mp4]+bestaudio[ext=m4a]/best[ext=mp4]/best";
    "bestvideo+bestaudio/best" ].

Definition video_opts (output_path : string) (ffmpeg_path : option string)
    (fmt : string) : YdlOpts :=
  {| format := fmt;
     outtmpl := os_path_join output_path "%(title)s.%(ext)s";
     merge_output_format := Some "mp4";
     ffmpeg_location := ffmpeg_path;
     concurrent_fragment_downloads := None;
     noprogress := false;
     progress_hooks := [print_progress_hook];
     postprocessors := [];
     postprocessor_hooks := [post_hook_spinner_hook];
     postprocessor_args := [] |}.

(** The [for fmt in format_attempts] loop of [download_video] together with
    the statement after it, over the formats still to be tried. *)
Fixpoint download_video_loop (fmts : list string) (url output_path : string)
    (ffmpeg_path : option string) (st : State) : option Exn * State :=
  match fmts with
  | [] =>
      (None,
       print "❌ Não foi possível baixar o vídeo em nenhum formato suportado."
             st)
  | fmt :: rest =>
      let ydl_opts := video_opts output_path ffmpeg_path fmt in
      let st := print (NL ++ "⏳ Tentando formato: " ++ fmt) st in
      match YoutubeDL_download ydl_opts [url] st with
      | (Returned, st) => (None, print "✅ Download de vídeo concluído!" st)
      | (Raised e, st) =>
          if is_DownloadError e then
            download_video_loop rest url output_path ffmpeg_path
              (print ("⚠️ Falhou: " ++ exc_str e) st)
          else if is_Exception e then
            (None, print ("❌ Erro inesperado: " ++ exc_str e) st)
          else (Some e, st)
      end
  end.

Definition download_video (url output_path : string)
    (ffmpeg_path : option string) (st : State) : option Exn * State :=
  download_video_loop format_attempts url output_path ffmpeg_path st.

Definition base_formats : list string :=
  [ "bv*[vcodec^=avc1][ext=mp4][height<=1080]+ba[ext=m4a]";
    "bestvideo[ext=mp4]+bestaudio[ext=m4a]";
    "best" ].

Definition protools_opts (output_path : string) (ffmpeg_path : option string)
    (fmt : string) : YdlOpts :=
  {| format := fmt;
     outtmpl := os_path_join output_path "%(title)s.%(ext)s";
     merge_output_format := Some "mp4";
     ffmpeg_location := ffmpeg_path;
     concurrent_fragment_downloads := None;
     noprogress := false;
     progress_hooks := [print_progress_hook];
     postprocessors := [];
     postprocessor_hooks := [post_hook_spinner_hook];
     postprocessor_args :=
       [ "-vcodec"; "libx264"; "-preset"; "fast"; "-crf"; "20";
         "-acodec"; "aac"; "-b:a"; "320k"; "-movflags"; "+faststart" ] |}.

Fixpoint download_video_protools_loop (fmts : list string)
    (url output_path : string) (ffmpeg_path : option string) (st : State)
    : option Exn * State :=
  match fmts with
  | [] =>
      (None,
       print "❌ Não foi possível baixar/convertê-lo para Pro Tools." st)
  | fmt :: rest =>
      let ydl_opts := protools_opts output_path ffmpeg_path fmt in
      let st := print (NL ++ "⏳ Formato PT: " ++ fmt) st in
      match YoutubeDL_download ydl_opts [url] st with
      | (Returned, st) => (None, print "✅ Vídeo PT concluído!" st)
      | (Raised e, st) =>
          if is_DownloadError e then
            download_video_protools_loop rest url output_path ffmpeg_path
              (print ("⚠️ Falhou formato '" ++ fmt ++ "': " ++ exc_str e) st)
          else if is_Exception e then
            (None, print ("❌ Erro inesperado: " ++ exc_str e) st)
          else (Some e, st)
      end
  end.

Definition download_video_protools (url output_path : string)
    (ffmpeg_path : option string) (st : State) : option Exn * State :=
  download_video_protools_loop base_formats url output_path ffmpeg_path st.

End Downloads.

(** Menu entries "2" and "3" of [main_menu]: the two modes that negotiate
    over a list of formats. *)
Inductive VideoMode : Type :=
| VideoBest
| VideoForEditingSuite.

(** The fixed list of formats of each mode, its options for one format and
    the lines it prints; [download_loop] picks the loop of the mode. *)
Definition plan_for (m : VideoMode) : list string :=
  match m with
  | VideoBest => format_attempts
  | VideoForEditingSuite => base_formats
  end.

Definition mode_opts (m : VideoMode) (output_path : string)
    (ffmpeg_path : option string) (fmt : string) : YdlOpts :=
  match m with
  | VideoBest => video_opts output_path ffmpeg_path fmt
  | VideoForEditingSuite => protools_opts output_path ffmpeg_path fmt
  end.

Definition trying_line (m : VideoMode) (fmt : string) : string :=
  match m with
  | VideoBest => NL ++ "⏳ Tentando formato: " ++ fmt
  | VideoForEditingSuite => NL ++ "⏳ Formato PT: " ++ fmt
  end.

Definition success_line (m : VideoMode) : string :=
  match m with
  | VideoBest => "✅ Download de vídeo concluído!"
  | VideoForEditingSuite => "✅ Vídeo PT concluído!"
  end.

Definition failed_line (m : VideoMode) (fmt : string) (e : Exn) : string :=
  match m with
  | VideoBest => "⚠️ Falhou: " ++ exc_str e
  | VideoForEditingSuite =>
      "⚠️ Falhou formato '" ++ fmt ++ "': " ++ exc_str e
  end.

Definition error_line (e : Exn) : string :=
  "❌ Erro inesperado: " ++ exc_str e.

Definition exhausted_line (m : VideoMode) : string :=
  match m with
  | VideoBest =>
      "❌ Não foi possível baixar o vídeo em nenhum formato suportado."
  | VideoForEditingSuite =>
      "❌ Não foi possível baixar/convertê-lo para Pro Tools."
  end.

Definition download_loop (ydl : Service) (m : VideoMode) (fmts : list string)
    (url output_path : string) (ffmpeg_path : option string) (st : State)
    : option Exn * State :=
  match m with
  | VideoBest => download_video_loop ydl fmts url output_path ffmpeg_path st
  | VideoForEditingSuite =>
      download_video_protools_loop ydl fmts url output_path ffmpeg_path st
  end.

(** One attempt of a mode: the announcement and the download. *)
Definition attempt (ydl : Service) (m : VideoMode) (fmt url output_path : string)
    (ffmpeg_path : option string) (st : State) : Result * State :=
  YoutubeDL_download ydl (mode_opts m output_path ffmpeg_path fmt) [url]
    (print (trying_line m fmt) st).

(** ** Reading the specification *)

(** The outcome of one attempt, in the words of the specification. *)
Inductive AcquisitionOutcome : Type :=
| Success
| RecoverableFailure (reason : string)
| UnrecoverableFailure (reason : string).

(** The classification the specification describes: format or media
    unavailable (selector rejected, no matching stream) is recoverable,
    every other error is not. *)
Definition spec_classification (e : Exn) : AcquisitionOutcome :=
  match exc_cause e with
  | SelectorRejected | NoMatchingStream => RecoverableFailure (exc_str e)
  | _ => UnrecoverableFailure (exc_str e)
  end.

(** Whether [needle] occurs in [hay]: a line names a selector or a reason
    when it contains it. *)
Fixpoint is_substring (needle hay : string) : bool :=
  String.prefix needle hay ||
  match hay with
  | EmptyString => false
  | String _ rest => is_substring needle rest
  end.

(** The spinner flag after an event, for options that register
    [print_progress] and [post_hook_spinner] as the download functions do:
    only the postprocessor events "started" and "finished" change it. *)
Definition spinner_after (running : bool) (ev : ServiceEvent) : bool :=
  match ev with
  | DownloadProgress _ => running
  | PostprocessorProgress d =>
      if status d =? "started" then true
      else if status d =? "finished" then false
      else running
  end.

(** The spinner is coherent when the flag and the renderer threads agree:
    running with exactly the thread of [spinner_thread] alive, or idle with
    none. *)
Definition coherent (st : State) : Prop :=
  if spinner_running st
  then exists t, spinner_thread st = Some t /\ alive st = [t]
  else alive st = [].

(** The lines written between two states. *)
Definition emitted (before after : State) : list string :=
  skipn (List.length (stdout before)) (stdout after).

(** ** Example services *)

(** Example exceptions: ffmpeg fails while postprocessing; the network is
    down, which yt_dlp reports as a [DownloadError]; no stream matches the
    selector. *)
Definition exn_ffmpeg_failed : Exn :=
  {| exc_class := OtherException "FFmpegPostProcessorError";
     exc_cause := EngineCrash;
     exc_str := "ffmpeg exited with code 1" |}.

Definition exn_network_down : Exn :=
  {| exc_class := DownloadError;
     exc_cause := NetworkFailure;
     exc_str := "ERROR: Unable to download webpage" |}.

Definition exn_format_unavailable : Exn :=
  {| exc_class := DownloadError;
     exc_cause := NoMatchingStream;
     exc_str := "ERROR: Requested format is not available" |}.

(** A hook dictionary with a status and nothing else. *)
Definition d_status (s : string) : HookDict :=
  {| status := s; _percent_str := None; _speed_str := None;
     _eta_str := None |}.

(** Postprocessing starts and then the ffmpeg step fails. *)
Definition ydl_postprocessing_fails : Service :=
  fun _ _ _ =>
    {| events := [ DownloadProgress (d_status "downloading");
                   DownloadProgress (d_status "finished");
                   PostprocessorProgress (d_status "started") ];
       result := Raised exn_ffmpeg_failed |}.

(** The network is down: yt_dlp reports it as a [DownloadError]. *)
Definition ydl_network_down : Service :=
  fun _ _ _ =>
    {| events := [];
       result := Raised exn_network_down |}.

(** No stream matches any selector. *)
Definition ydl_format_unavailable : Service :=
  fun _ _ _ =>
    {| events := [];
       result := Raised exn_format_unavailable |}.

(** A download progress event as yt_dlp sends it. *)
Definition d_downloading : HookDict :=
  {| status := "downloading"; _percent_str := Some " 42.0%";
     _speed_str := Some "1.2MiB/s"; _eta_str := Some "00:07" |}.

(** The first request finds no matching stream, every later one downloads
    and postprocesses. *)
Definition ydl_second_succeeds : Service :=
  fun n _ _ =>
    match n with
    | 0 =>
        {| events := [];
           result := Raised exn_format_unavailable |}
    | S _ =>
        {| events := [ DownloadProgress (d_status "downloading");
                       DownloadProgress (d_status "finished");
                       PostprocessorProgress (d_status "started");
                       PostprocessorProgress (d_status "finished") ];
           result := Returned |}
    end.

(** The entry [print(s)] adds to the output. *)
Definition line (s : string) : string := s ++ NL.

(** The options of the download functions register exactly these hooks. *)
Definition standard_hooks (opts : YdlOpts) : Prop :=
  progress_hooks opts = [print_progress_hook] /\
  postprocessor_hooks opts = [post_hook_spinner_hook].

(** The output only grows. *)
Definition extends (st st' : State) : Prop :=
  exists out, stdout st' = (stdout st ++ out)%list.

(** ** Vocabulary for the negotiation loops *)

(** Entries "2" and "3" of [main_menu]. *)
Definition download_mode (ydl : Service) (m : VideoMode) (url out : string)
    (ff : option string) (st : State) : option Exn * State :=
  match m with
  | VideoBest => download_video ydl url out ff st
  | VideoForEditingSuite => download_video_protools ydl url out ff st
  end.

Section Vocabulary.

Variable ydl : Service.
Variable m : VideoMode.
Variables url out : string.
Variable ff : option string.

(** The four ways the first attempt of a plan can go, with what the loop
    does in each. *)
Inductive FirstAttempt (fmt : string) (rest : list string) (st : State) : Prop :=
| first_returned :
    result (ydl (List.length (calls st)) (mode_opts m out ff fmt) [url])
    = Returned ->
    download_loop ydl m (fmt :: rest) url out ff st
    = (None, print (success_line m) (snd (attempt ydl m fmt url out ff st))) ->
    FirstAttempt fmt rest st
| first_recoverable e :
    result (ydl (List.length (calls st)) (mode_opts m out ff fmt) [url])
    = Raised e ->
    is_DownloadError e = true ->
    download_loop ydl m (fmt :: rest) url out ff st
    = download_loop ydl m rest url out ff
        (print (failed_line m fmt e) (snd (attempt ydl m fmt url out ff st))) ->
    FirstAttempt fmt rest st
| first_unrecoverable e :
    result (ydl (List.length (calls st)) (mode_opts m out ff fmt) [url])
    = Raised e ->
    is_DownloadError e = false ->
    is_Exception e = true ->
    download_loop ydl m (fmt :: rest) url out ff st
    = (None, print (error_line e) (snd (attempt ydl m fmt url out ff st))) ->
    FirstAttempt fmt rest st
| first_escapes e :
    result (ydl (List.length (calls st)) (mode_opts m out ff fmt) [url])
    = Raised e ->
    is_Exception e = false ->
    download_loop ydl m (fmt :: rest) url out ff st
    = (Some e, snd (attempt ydl m fmt url out ff st)) ->
    FirstAttempt fmt rest st.

(** Attempt [i] of the plan failed with [e] and was logged: from some state
    [s] in which the first [i] formats had been requested, the attempt
    announced its format, ran, and its failure line was printed; [final]
    has all that output. *)
Definition logged (st : State) (plan : list string) (i : nat) (fmt : string)
    (e : Exn) (final : State) : Prop :=
  exists s hooks_out,
    calls s = (calls st ++ map (mode_opts m out ff) (firstn i plan))%list /\
    stdout (snd (attempt ydl m fmt url out ff s))
    = (stdout s ++ line (trying_line m fmt) :: hooks_out)%list /\
    extends (print (failed_line m fmt e) (snd (attempt ydl m fmt url out ff s)))
            final.

(** Every attempt before [k] fails with a [DownloadError]. *)
Definition recoverable_before (st : State) (plan : list string) (k : nat)
    : Prop :=
  forall i fmt_i, i < k -> nth_error plan i = Some fmt_i ->
    exists e,
      result (ydl (List.length (calls st) + i) (mode_opts m out ff fmt_i) [url])
      = Raised e /\
      is_DownloadError e = true.

End Vocabulary.

(** Every answer of the service that raises, raises an [Exception]. *)
Definition raises_only_Exception (ydl : Service) : Prop :=
  forall n o u e, result (ydl n o u) = Raised e -> is_Exception e = true.

(** Every answer of the service sends, after its last postprocessor
    "started", a postprocessor "finished". *)
Definition finishes_what_it_starts (ydl : Service) : Prop :=
  forall n o u, fold_left spinner_after (events (ydl n o u)) false = false.

(** The events the service sends for a list of requests made one after
    the other, the first of them being request number [n]. *)
Fixpoint events_of_requests (ydl : Service) (n : nat) (reqs : list YdlOpts)
    (urls : list string) : list ServiceEvent :=
  match reqs with
  | [] => []
  | o :: rest =>
      (events (ydl n o urls) ++ events_of_requests ydl (S n) rest urls)%list
  end.

(** Arguments and formats used in the examples. *)
Definition fmt_video_second : string :=
  "bestvideo[ext=mp4]+bestaudio[ext=m4a]/best[ext=mp4]/best".
Definition fmt_video_first : string :=
  "bv*[vcodec^=avc1][ext=mp4]+ba[ext=m4a]/b[ext=mp4]/best".
Definition fmt_protools_second : string :=
  "bestvideo[ext=mp4]+bestaudio[ext=m4a]".

Definition example_url : string := "https://www.youtube.com/watch?v=example".
Definition example_out : string := "/Users/me/Downloads".
Definition example_ff : option string := Some "/Users/me/.pyffmpeg/bin/ffmpeg".

(** * The interactive part: prompts, folders and the menu *)

(** ** Python string methods used on what the user types *)

(** The characters [str.strip()] removes, as UTF-8: the code points for
    which [str.isspace()] holds (U+0009..U+000D, U+001C..U+0020, U+0085,
    U+00A0, U+1680, U+2000..U+200A, U+2028, U+2029, U+202F, U+205F,
    U+3000). *)
Definition utf8 (bytes : list nat) : string :=
  fold_right (fun b s => String (ascii_of_nat b) s) EmptyString bytes.

Definition py_whitespace : list string :=
  map utf8
    [ [9]; [10]; [11]; [12]; [13]; [28]; [29]; [30]; [31]; [32];
      [194; 133]; [194; 160]; [225; 154; 128];
      [226; 128; 128]; [226; 128; 129]; [226; 128; 130]; [226; 128; 131];
      [226; 128; 132]; [226; 128; 133]; [226; 128; 134]; [226; 128; 135];
      [226; 128; 136]; [226; 128; 137]; [226; 128; 138];
      [226; 128; 168]; [226; 128; 169]; [226; 128; 175];
      [226; 129; 159]; [227; 128; 128] ].

(** Drop the leading occurrences of the patterns [ws]; [skip] counts the
    bytes of the current occurrence still to drop. *)
Fixpoint lstrip_go (ws : list string) (skip : nat) (s : string) : string :=
  match s with
  | EmptyString => EmptyString
  | String _ rest =>
      match skip with
      | S k => lstrip_go ws k rest
      | 0 =>
          match find (fun w => String.prefix w s) ws with
          | Some w => lstrip_go ws (String.length w - 1) rest
          | None => s
          end
      end
  end.

Fixpoint string_rev (s : string) : string :=
  match s with
  | EmptyString => EmptyString
  | String c rest => string_rev rest ++ String c EmptyString
  end.

Definition lstrip (s : string) : string := lstrip_go py_whitespace 0 s.

Definition rstrip (s : string) : string :=
  string_rev (lstrip_go (map string_rev py_whitespace) 0 (string_rev s)).

(** [s.strip()] *)
Definition strip (s : string) : string := rstrip (lstrip s).

(** [s.strip(c)] for a single character [c]. *)
Fixpoint lstrip_char (c : ascii) (s : string) : string :=
  match s with
  | EmptyString => EmptyString
  | String a rest => if Ascii.eqb a c then lstrip_char c rest else s
  end.

Fixpoint rstrip_char (c : ascii) (s : string) : string :=
  match s with
  | EmptyString => EmptyString
  | String a rest =>
      match rstrip_char c rest with
      | EmptyString => if Ascii.eqb a c then EmptyString
                       else String a EmptyString
      | r => String a r
      end
  end.

Definition strip_char (c : ascii) (s : string) : string :=
  rstrip_char c (lstrip_char c s).

(** [s.replace(old, new)]: the occurrences of [old] are found from the
    left and do not overlap; [skip] counts the characters of the current
    occurrence still to pass over.  For an empty [old], [new] goes before
    every character and at the end. *)
Fixpoint replace_go (old new : string) (skip : nat) (s : string) : string :=
  match s with
  | EmptyString => EmptyString
  | String c rest =>
      match skip with
      | S k => replace_go old new k rest
      | 0 =>
          if String.prefix old s
          then new ++ replace_go old new (String.length old - 1) rest
          else String c (replace_go old new 0 rest)
      end
  end.

Fixpoint replace_empty (new s : string) : string :=
  match s with
  | EmptyString => new
  | String c rest => new ++ String c (replace_empty new rest)
  end.

Definition replace (old new s : string) : string :=
  if old =? "" then replace_empty new s else replace_go old new 0 s.

Definition DQUOTE : ascii := ascii_of_nat 34.   (* the double quote *)
Definition SQUOTE : ascii := "'"%char.
Definition BACKSLASH : string := chr 92.

(** Lines 120-122 of [get_output_path]: quotes around the path go, and a
    space escaped with one or two backslashes becomes a space. *)
Definition clean_path (path : string) : string :=
  let path := strip_char SQUOTE (strip_char DQUOTE path) in
  let path := replace (BACKSLASH ++ BACKSLASH ++ " ") " " path in
  replace (BACKSLASH ++ " ") " " path.

(** ** The terminal and the file system *)

(** What [os.path.isdir] and [os.path.exists] answer at one moment. *)
Record FS : Type := mkFS {
  isdir : string -> bool;
  path_exists : string -> bool
}.

(** [os.makedirs(path)]: the exception it raises, if any, and the file
    system afterwards. *)
Definition Makedirs : Type := FS -> string -> option Exn * FS.

(** [prog]: the state of the program; [stdin]: the lines the user will
    type, without their newline; [fs]: the file system. *)
Record Session : Type := mkSession {
  prog : State;
  stdin : list string;
  fs : FS
}.

(** A call that returns a value or lets an exception out. *)
Inductive Outcome (A : Type) : Type :=
| Value (a : A)
| Propagated (e : Exn).

Arguments Value {A} a.
Arguments Propagated {A} e.

(** Exceptions raised outside yt_dlp.  [input()] raises [EOFError] when
    the input has ended. *)
Definition exn_EOFError : Exn :=
  {| exc_class := OtherException "EOFError";
     exc_cause := Interrupted;
     exc_str := "EOF when reading a line" |}.

Definition exn_ffmpeg_not_found : Exn :=
  {| exc_class := OtherException "Exception";
     exc_cause := EngineCrash;
     exc_str := "Não foi possível encontrar o caminho do ffmpeg" |}.

(** [isinstance(e, OSError)]: [OSError], its aliases and its built-in
    subclasses. *)
Definition OSError_classes : list string :=
  [ "OSError"; "IOError"; "EnvironmentError"; "BlockingIOError";
    "ChildProcessError"; "ConnectionError"; "BrokenPipeError";
    "ConnectionAbortedError"; "ConnectionRefusedError";
    "ConnectionResetError"; "FileExistsError"; "FileNotFoundError";
    "InterruptedError"; "IsADirectoryError"; "NotADirectoryError";
    "PermissionError"; "ProcessLookupError"; "TimeoutError" ].

Definition is_OSError (e : Exn) : bool :=
  match exc_class e with
  | OtherException name => existsb (String.eqb name) OSError_classes
  | _ => false
  end.

Definition with_prog (st : State) (s : Session) : Session :=
  {| prog := st; stdin := stdin s; fs := fs s |}.

(** [input(prompt)]: the prompt is written without a newline and the next
    line is read.  The input is a list of lines followed by its end, so
    [input] returns a line or raises [EOFError]: a [KeyboardInterrupt]
    while a prompt waits (Ctrl-C), which Python lets out of [input()] and
    which no [except Exception] of the program catches, is outside this
    model, and so is a terminal that never closes. *)
Definition input (prompt : string) (s : Session) : Outcome string * Session :=
  let st := print_end prompt "" (prog s) in
  match stdin s with
  | [] => (Propagated exn_EOFError, with_prog st s)
  | typed :: rest => (Value typed, {| prog := st; stdin := rest; fs := fs s |})
  end.

(** ** [get_url], [get_output_path], [get_ffmpeg_path] *)

Definition get_url (s : Session) : Outcome string * Session :=
  match input (NL ++ "🔗 Digite a URL do YouTube: ") s with
  | (Value typed, s) => (Value (strip typed), s)
  | (Propagated e, s) => (Propagated e, s)
  end.

Section Folders.

(** [default_downloads_path] is [str(Path.home() / "Downloads")]. *)
Variable default_downloads_path : string.
Variable makedirs : Makedirs.

(** The [while True] loop of [get_output_path]: every turn reads one line,
    so the loop is written over the lines still to come.  The [input()] of
    line 108 is, as in [input], a line or [EOFError]; an interrupt from
    the keyboard at the prompt is not modelled. *)
Fixpoint get_output_path_from (lines : list string) (fs0 : FS) (st : State)
    : Outcome (option string) * Session :=
  let st :=
    print (NL ++ "Digite o caminho da pasta de saída (ou arraste a pasta para aqui)")
          st in
  let st :=
    print ("(Pressione Enter para usar o padrão: " ++ default_downloads_path
           ++ ")") st in
  let st := print "Digite '0' para cancelar e voltar ao menu" st in
  let st := print_end (NL ++ "📁 Caminho: ") "" st in
  match lines with
  | [] => (Propagated exn_EOFError, {| prog := st; stdin := []; fs := fs0 |})
  | typed :: rest =>
      let path_input := strip typed in
      if path_input =? "0" then
        (Value None, {| prog := st; stdin := rest; fs := fs0 |})
      else
        let '(path, st) :=
          if path_input =? "" then
            (default_downloads_path,
             print ("INFO: Usando pasta Downloads padrão: "
                    ++ default_downloads_path) st)
          else (path_input, st) in
        let path := clean_path path in
        if isdir fs0 path then
          (Value (Some path), {| prog := st; stdin := rest; fs := fs0 |})
        else if (path =? default_downloads_path)
                && negb (path_exists fs0 path) then
          match makedirs fs0 path with
          | (None, fs1) =>
              (Value (Some path),
               {| prog := print ("INFO: Pasta Downloads padrão criada: "
                                 ++ path) st;
                  stdin := rest; fs := fs1 |})
          | (Some e, fs1) =>
              if is_OSError e then
                get_output_path_from rest fs1
                  (print ("❌ ERRO: Não foi possível criar a pasta Downloads padrão: "
                          ++ path ++ NL ++ exc_str e) st)
              else
                (Propagated e, {| prog := st; stdin := rest; fs := fs1 |})
          end
        else
          get_output_path_from rest fs0
            (print "❌ Caminho de pasta inválido. Tente novamente ou verifique as permissões."
                   st)
  end.

Definition get_output_path (s : Session) : Outcome (option string) * Session :=
  get_output_path_from (stdin s) (fs s) (prog s).

End Folders.

(** The object [FFmpeg()] builds, as far as [get_ffmpeg_path] looks at it:
    the two attributes it tries, each present or not. *)
Record FFmpegObj : Type := mkFFmpegObj {
  ffmpeg_bin : option string;
  _FFmpeg__ff_bin : option string
}.

(** [construct] is what [FFmpeg()] does: it raises or builds the object;
    [home] is [str(Path.home())]. *)
Definition get_ffmpeg_path (construct : Exn + FFmpegObj) (home : string)
    (fs0 : FS) (st : State) : Outcome (option string) * State :=
  let found (path : string) :=
    (Value (Some path),
     print ("ℹ️ Usando ffmpeg embutido do pyffmpeg: " ++ path) st) in
  let failed (e : Exn) :=
    if is_Exception e
    then (Value None, print ("⚠️ Erro ao localizar ffmpeg: " ++ exc_str e) st)
    else (Propagated e, st) in
  match construct with
  | inl e => failed e
  | inr ff =>
      match ffmpeg_bin ff with
      | Some path => found path
      | None =>
          match _FFmpeg__ff_bin ff with
          | Some path => found path
          | None =>
              let default_path :=
                os_path_join
                  (os_path_join (os_path_join home ".pyffmpeg") "bin")
                  "ffmpeg" in
              if path_exists fs0 default_path then found default_path
              else failed exn_ffmpeg_not_found
          end
      end
  end.

(** ** [main_menu] *)

(** [not ffmpeg_path]: [None] and the empty string are false. *)
Definition falsy (p : option string) : bool :=
  match p with
  | None => true
  | Some s => s =? ""
  end.

(** How the body of the [try] in the menu loop ends when it raises
    nothing. *)
Inductive Flow : Type :=
| Break
| Continue
| Fallthrough.

(** How [main_menu] ends: the user left with "0", an exception got out, or
    the given number of turns was used up. *)
Inductive MenuExit : Type :=
| Left
| Escaped (e : Exn)
| OutOfFuel.

Section Menu.

Variable ydl : Service.
Variable default_downloads_path : string.
Variable makedirs : Makedirs.

(** Lines 298-303: the download of the chosen entry; [choice] is "1", "2"
    or "3". *)
Definition download_choice (choice url output_path : string)
    (ffmpeg_path : option string) (st : State) : option Exn * State :=
  if choice =? "1" then download_audio ydl url output_path ffmpeg_path st
  else if choice =? "2" then download_video ydl url output_path ffmpeg_path st
  else download_video_protools ydl url output_path ffmpeg_path st.

(** The body of the [try] block, lines 278-306. *)
Definition menu_try (ffmpeg_path : option string) (s : Session)
    : Outcome Flow * Session :=
  match input (NL ++ "Digite sua escolha (0-3): ") s with
  | (Propagated e, s) => (Propagated e, s)
  | (Value typed, s) =>
      let choice := strip typed in
      if choice =? "0" then
        (Value Break, with_prog (print "Saindo do YouTube Downloader." (prog s)) s)
      else if existsb (String.eqb choice) ["1"; "2"; "3"] then
        match get_url s with
        | (Propagated e, s) => (Propagated e, s)
        | (Value url, s) =>
            if url =? "" then
              (Value Continue,
               with_prog (print "❌ URL não pode estar vazia." (prog s)) s)
            else
              match get_output_path default_downloads_path makedirs s with
              | (Propagated e, s) => (Propagated e, s)
              | (Value None, s) => (Value Continue, s)
              | (Value (Some output_path), s) =>
                  let st :=
                    if falsy ffmpeg_path then
                      print "⚠️ Aviso: O caminho do ffmpeg não está disponível. Tentando continuar mesmo assim..."
                            (prog s)
                    else prog s in
                  match download_choice choice url output_path ffmpeg_path st
                  with
                  | (None, st) => (Value Fallthrough, with_prog st s)
                  | (Some e, st) => (Propagated e, with_prog st s)
                  end
            end
        end
      else
        (Value Fallthrough,
         with_prog (print "❌ Por favor, digite uma opção válida (0-3)" (prog s))
                   s)
  end.

(** The five lines of the menu, lines 271-275. *)
Definition print_menu (st : State) : State :=
  let st := print (NL ++ "=== 📺 Aquisição de Conteúdo do YouTube ===") st in
  let st := print "1. 🎵 Baixar Somente Áudio (MP3)" st in
  let st := print "2. 🎥 Baixar Vídeo (Melhor Qualidade)" st in
  let st := print "3. 🎬 Baixar Vídeo (Otimizado para Pro Tools)" st in
  print "0. ↩️ Voltar ao Menu Principal (Sair do Script)" st.

(** One turn of the [while True] loop: the loop ends ([inl]) or goes round
    again ([inr]). *)
Definition menu_turn (ffmpeg_path : option string) (s : Session)
    : (MenuExit * Session) + Session :=
  let s := with_prog (print_menu (prog s)) s in
  let press_enter (s : Session) : (MenuExit * Session) + Session :=
    match input (NL ++ "Pressione Enter para continuar...") s with
    | (Value _, s) => inr s
    | (Propagated e, s) => inl (Escaped e, s)
    end in
  match menu_try ffmpeg_path s with
  | (Value Break, s) => inl (Left, s)
  | (Value Continue, s) => inr s
  | (Value Fallthrough, s) => press_enter s
  | (Propagated e, s) =>
      if is_Exception e then
        press_enter
          (with_prog
             (print (NL ++ "❌ Ocorreu um erro inesperado no menu: " ++ exc_str e)
                    (prog s)) s)
      else inl (Escaped e, s)
  end.

(** The loop, for at most [fuel] turns. *)
Fixpoint main_menu_loop (fuel : nat) (ffmpeg_path : option string)
    (s : Session) : MenuExit * Session :=
  match fuel with
  | 0 => (OutOfFuel, s)
  | S fuel =>
      match menu_turn ffmpeg_path s with
      | inl done => done
      | inr s => main_menu_loop fuel ffmpeg_path s
      end
  end.

(** What [main_menu] finds around it when it looks for ffmpeg: the two
    attempts to build [FFmpeg()], and the reinstallation of pyffmpeg by pip
    between them ([subprocess.call]: the exception it raises, if any, and
    the file system afterwards). *)
Record Pyffmpeg : Type := mkPyffmpeg {
  home : string;
  first_construct : Exn + FFmpegObj;
  pip_reinstall : FS -> option Exn * FS;
  second_construct : Exn + FFmpegObj
}.

(** Lines 259-268: the ffmpeg path the menu loop starts with. *)
Definition resolve_ffmpeg (env : Pyffmpeg) (s : Session)
    : Outcome (option string) * Session :=
  match get_ffmpeg_path (first_construct env) (home env) (fs s) (prog s) with
  | (Propagated e, st) => (Propagated e, with_prog st s)
  | (Value ffmpeg_path, st) =>
      if falsy ffmpeg_path then
        let st :=
          print "❌ ERRO CRÍTICO: Não foi possível encontrar o ffmpeg através do pyffmpeg."
                st in
        let st :=
          print "Por favor, verifique se o pyffmpeg está instalado corretamente."
                st in
        let st := print "Tentando instalar pyffmpeg novamente..." st in
        match pip_reinstall env (fs s) with
        | (Some e, fs1) =>
            (Propagated e, {| prog := st; stdin := stdin s; fs := fs1 |})
        | (None, fs1) =>
            match get_ffmpeg_path (second_construct env) (home env) fs1 st with
            | (Propagated e, st) =>
                (Propagated e, {| prog := st; stdin := stdin s; fs := fs1 |})
            | (Value ffmpeg_path, st) =>
                let st :=
                  if falsy ffmpeg_path then
                    print "❌ Falha ao instalar/configurar o pyffmpeg. O programa pode não funcionar corretamente."
                          st
                  else st in
                (Value ffmpeg_path,
                 {| prog := st; stdin := stdin s; fs := fs1 |})
            end
        end
      else (Value ffmpeg_path, with_prog st s)
  end.

(** Every turn that goes round again has read a line, so one turn more
    than there are lines is enough. *)
Definition main_menu (env : Pyffmpeg) (s : Session) : MenuExit * Session :=
  match resolve_ffmpeg env s with
  | (Propagated e, s) => (Escaped e, s)
  | (Value ffmpeg_path, s) =>
      main_menu_loop (S (List.length (stdin s))) ffmpeg_path s
  end.

End Menu.

(** ** Vocabulary for the properties of the interactive part *)

(** One turn of the loop of [get_output_path] on the line [typed]: the
    loop ends with an outcome ([inl]) or asks again ([inr]); either way
    with the state and the file system it leaves. *)
Definition output_path_turn (default_downloads_path : string)
    (makedirs : Makedirs) (typed : string) (fs0 : FS) (st : State)
    : (Outcome (option string) * State * FS) + (State * FS) :=
  let st :=
    print (NL ++ "Digite o caminho da pasta de saída (ou arraste a pasta para aqui)")
          st in
  let st :=
    print ("(Pressione Enter para usar o padrão: " ++ default_downloads_path
           ++ ")") st in
  let st := print "Digite '0' para cancelar e voltar ao menu" st in
  let st := print_end (NL ++ "📁 Caminho: ") "" st in
  let path_input := strip typed in
  if path_input =? "0" then inl (Value None, st, fs0)
  else
    let '(path, st) :=
      if path_input =? "" then
        (default_downloads_path,
         print ("INFO: Usando pasta Downloads padrão: "
                ++ default_downloads_path) st)
      else (path_input, st) in
    let path := clean_path path in
    if isdir fs0 path then inl (Value (Some path), st, fs0)
    else if (path =? default_downloads_path)
            && negb (path_exists fs0 path) then
      match makedirs fs0 path with
      | (None, fs1) =>
          inl (Value (Some path),
               print ("INFO: Pasta Downloads padrão criada: " ++ path) st,
               fs1)
      | (Some e, fs1) =>
          if is_OSError e then
            inr (print ("❌ ERRO: Não foi possível criar a pasta Downloads padrão: "
                        ++ path ++ NL ++ exc_str e) st,
                 fs1)
          else inl (Propagated e, st, fs1)
      end
    else
      inr (print "❌ Caminho de pasta inválido. Tente novamente ou verifique as permissões."
                 st,
           fs0).

(** A path as a shell pastes it when a folder is dragged into the
    terminal: every space escaped with a backslash. *)
Fixpoint escape_spaces (s : string) : string :=
  match s with
  | EmptyString => EmptyString
  | String c rest =>
      if Ascii.eqb c " "%char
      then BACKSLASH ++ String " "%char (escape_spaces rest)
      else String c (escape_spaces rest)
  end.

Definition first_is (c : ascii) (s : string) : bool :=
  match s with
  | EmptyString => false
  | String a _ => Ascii.eqb a c
  end.

Fixpoint last_is (c : ascii) (s : string) : bool :=
  match s with
  | EmptyString => false
  | String a EmptyString => Ascii.eqb a c
  | String _ rest => last_is c rest
  end.

Fixpoint has_char (c : ascii) (s : string) : bool :=
  match s with
  | EmptyString => false
  | String a rest => Ascii.eqb a c || has_char c rest
  end.

(** Whether [s] begins, or ends, with a character [str.strip()] removes. *)
Definition starts_with_space (s : string) : bool :=
  existsb (fun w => String.prefix w s) py_whitespace.

Definition ends_with_space (s : string) : bool :=
  existsb (fun w => String.prefix w (string_rev s))
          (map string_rev py_whitespace).

(** [escape_spaces] read from the right: the backslash follows its
    space. *)
Fixpoint escape_spaces_rev (s : string) : string :=
  match s with
  | EmptyString => EmptyString
  | String c rest =>
      if Ascii.eqb c " "%char
      then String " "%char (BACKSLASH ++ escape_spaces_rev rest)
      else String c (escape_spaces_rev rest)
  end.

(** A path with no backslash in it and no quote at either end. *)
Definition plain_path (p : string) : bool :=
  negb (has_char (ascii_of_nat 92) p)
  && negb (first_is DQUOTE p) && negb (last_is DQUOTE p)
  && negb (first_is SQUOTE p) && negb (last_is SQUOTE p).

(** How often the spinner flag goes up, and how often it comes down, along
    the events of a download. *)
Fixpoint spinner_starts (running : bool) (evs : list ServiceEvent) : nat :=
  match evs with
  | [] => 0
  | ev :: rest =>
      (if negb running && spinner_after running ev then 1 else 0)
      + spinner_starts (spinner_after running ev) rest
  end.

Fixpoint spinner_stops (running : bool) (evs : list ServiceEvent) : nat :=
  match evs with
  | [] => 0
  | ev :: rest =>
      (if running && negb (spinner_after running ev) then 1 else 0)
      + spinner_stops (spinner_after running ev) rest
  end.

(** [n] turns of the renderer loop while the flag stays up: the frames
    written and the index reached. *)
Fixpoint _spinner_loop_turns (n idx : nat) : list string * nat :=
  match n with
  | 0 => ([], idx)
  | S n =>
      match _spinner_loop_turn true idx with
      | Some (frame, next) =>
          let '(written, last_idx) := _spinner_loop_turns n next in
          (frame :: written, last_idx)
      | None => ([], idx)
      end
  end.

(** [os.makedirs] does its job: when it raises nothing, the path is a
    directory afterwards. *)
Definition creates_directories (makedirs : Makedirs) : Prop :=
  forall f p f', makedirs f p = (None, f') -> isdir f' p = true.

(** ** Example surroundings *)

Definition fs_with (dirs : list string) : FS :=
  {| isdir := fun p => existsb (String.eqb p) dirs;
     path_exists := fun p => existsb (String.eqb p) dirs |}.

Definition makedirs_creates : Makedirs :=
  fun f p =>
    (None,
     {| isdir := fun q => (q =? p) || isdir f q;
        path_exists := fun q => (q =? p) || path_exists f q |}).

Definition exn_permission_denied : Exn :=
  {| exc_class := OtherException "PermissionError";
     exc_cause := PermissionDenied;
     exc_str := "[Errno 13] Permission denied: '/Users/me/Downloads'" |}.

Definition makedirs_denied : Makedirs :=
  fun f p => (Some exn_permission_denied, f).

Definition exn_KeyboardInterrupt : Exn :=
  {| exc_class := KeyboardInterrupt;
     exc_cause := Interrupted;
     exc_str := "" |}.

(** The user interrupts the second download. *)
Definition ydl_interrupted_second : Service :=
  fun n _ _ =>
    match n with
    | 0 => {| events := []; result := Raised exn_format_unavailable |}
    | S _ => {| events := [ DownloadProgress d_downloading ];
                result := Raised exn_KeyboardInterrupt |}
    end.

(** pyffmpeg cannot be built, before and after the reinstallation, and pip
    changes nothing. *)
Definition exn_pyffmpeg_broken : Exn :=
  {| exc_class := OtherException "RuntimeError";
     exc_cause := EngineCrash;
     exc_str := "pyffmpeg: no binary for this platform" |}.

Definition pyffmpeg_missing : Pyffmpeg :=
  {| home := "/Users/me";
     first_construct := inl exn_pyffmpeg_broken;
     pip_reinstall := fun f => (None, f);
     second_construct := inl exn_pyffmpeg_broken |}.

Definition example_music : string := "/Users/me/My Music".

Definition session (typed : list string) (dirs : list string) : Session :=
  {| prog := initial_state; stdin := typed; fs := fs_with dirs |}.

(** The session a turn of the menu leaves, whether the loop ends with it
    or goes on. *)
Definition session_after (r : (MenuExit * Session) + Session) : Session :=
  match r with
  | inl (_, s) => s
  | inr s => s
  end.

(** * Properties *)

(** ** What each operation leaves alone *)

Lemma calls_print_end s e st : calls (print_end s e st) = calls st.
Proof. reflexivity. Qed.

Lemma stdout_print s st : stdout (print s st) = (stdout st ++ [line s])%list.
Proof. reflexivity. Qed.

Lemma calls_start_spinner st : calls (start_spinner st) = calls st.
Proof. unfold start_spinner; destruct (spinner_running st); reflexivity. Qed.

Lemma calls_stop_spinner st : calls (stop_spinner st) = calls st.
Proof.
  unfold stop_spinner; destruct (spinner_running st); simpl; trivial.
  destruct (spinner_thread st); reflexivity.
Qed.

Lemma calls_call_hook h d st : calls (call_hook h d st) = calls st.
Proof.
  destruct h; simpl.
  - unfold print_progress.
    destruct (status d =? "downloading"); [reflexivity|].
    destruct (status d =? "finished"); reflexivity.
  - unfold post_hook_spinner.
    destruct (status d =? "started"); [apply calls_start_spinner|].
    destruct (status d =? "finished"); [apply calls_stop_spinner|reflexivity].
Qed.

Lemma calls_call_hooks hs d st : calls (call_hooks hs d st) = calls st.
Proof.
  unfold call_hooks; revert st.
  induction hs as [|h hs IH]; intros st; simpl; [reflexivity|].
  rewrite IH; apply calls_call_hook.
Qed.

Lemma calls_deliver opts st ev : calls (deliver opts st ev) = calls st.
Proof. destruct ev; apply calls_call_hooks. Qed.

Lemma calls_deliver_all opts evs st :
  calls (fold_left (deliver opts) evs st) = calls st.
Proof.
  revert st; induction evs as [|ev evs IH]; intros st; simpl; [reflexivity|].
  rewrite IH; apply calls_deliver.
Qed.


Lemma extends_same st st' : stdout st' = stdout st -> extends st st'.
Proof. intros H; exists []; rewrite H; symmetry; apply app_nil_r. Qed.

Lemma extends_refl st : extends st st.
Proof. apply extends_same; reflexivity. Qed.

Lemma extends_trans s1 s2 s3 : extends s1 s2 -> extends s2 s3 -> extends s1 s3.
Proof.
  intros [a Ha] [b Hb]; exists (a ++ b)%list.
  rewrite Hb, Ha; symmetry; apply app_assoc.
Qed.

Lemma extends_print_end s e st : extends st (print_end s e st).
Proof. exists [s ++ e]; reflexivity. Qed.

Lemma extends_print s st : extends st (print s st).
Proof. apply extends_print_end. Qed.

Lemma extends_start_spinner st : extends st (start_spinner st).
Proof.
  unfold start_spinner; destruct (spinner_running st);
    apply extends_same; reflexivity.
Qed.

Lemma extends_stop_spinner st : extends st (stop_spinner st).
Proof.
  unfold stop_spinner; destruct (spinner_running st); simpl;
    [|apply extends_refl].
  exists [line FESHOW]; destruct (spinner_thread st); reflexivity.
Qed.

Lemma extends_call_hook h d st : extends st (call_hook h d st).
Proof.
  destruct h; simpl.
  - unfold print_progress.
    destruct (status d =? "downloading"); [apply extends_print_end|].
    destruct (status d =? "finished");
      [apply extends_print|apply extends_refl].
  - unfold post_hook_spinner.
    destruct (status d =? "started"); [apply extends_start_spinner|].
    destruct (status d =? "finished");
      [apply extends_stop_spinner|apply extends_refl].
Qed.

Lemma extends_call_hooks hs d st : extends st (call_hooks hs d st).
Proof.
  unfold call_hooks; revert st.
  induction hs as [|h hs IH]; intros st; simpl; [apply extends_refl|].
  eapply extends_trans; [apply extends_call_hook|apply IH].
Qed.

Lemma extends_deliver opts st ev : extends st (deliver opts st ev).
Proof. destruct ev; apply extends_call_hooks. Qed.

Lemma extends_deliver_all opts evs st :
  extends st (fold_left (deliver opts) evs st).
Proof.
  revert st; induction evs as [|ev evs IH]; intros st; simpl;
    [apply extends_refl|].
  eapply extends_trans; [apply extends_deliver|apply IH].
Qed.

Lemma emitted_extends st st' out :
  stdout st' = (stdout st ++ out)%list -> emitted st st' = out.
Proof.
  intros H; unfold emitted; rewrite H.
  rewrite skipn_app, skipn_all, Nat.sub_diag; reflexivity.
Qed.

(** ** The spinner flag along the events of a download *)

Lemma running_print_end s e st :
  spinner_running (print_end s e st) = spinner_running st.
Proof. reflexivity. Qed.

Lemma running_print_progress d st :
  spinner_running (print_progress d st) = spinner_running st.
Proof.
  unfold print_progress.
  destruct (status d =? "downloading"); [reflexivity|].
  destruct (status d =? "finished"); reflexivity.
Qed.

Lemma running_start_spinner st : spinner_running (start_spinner st) = true.
Proof.
  unfold start_spinner; destruct (spinner_running st) eqn:E; simpl; trivial.
Qed.

Lemma running_stop_spinner st : spinner_running (stop_spinner st) = false.
Proof.
  unfold stop_spinner; destruct (spinner_running st) eqn:E; simpl; trivial.
  destruct (spinner_thread st); reflexivity.
Qed.

Lemma running_deliver opts st ev :
  standard_hooks opts ->
  spinner_running (deliver opts st ev) = spinner_after (spinner_running st) ev.
Proof.
  intros [Hp Hpp]; destruct ev as [d|d]; simpl.
  - rewrite Hp; simpl; apply running_print_progress.
  - rewrite Hpp; simpl; unfold post_hook_spinner.
    destruct (status d =? "started"); [apply running_start_spinner|].
    destruct (status d =? "finished"); [apply running_stop_spinner|].
    reflexivity.
Qed.

Lemma running_deliver_all opts evs st :
  standard_hooks opts ->
  spinner_running (fold_left (deliver opts) evs st)
  = fold_left spinner_after evs (spinner_running st).
Proof.
  intros H; revert st; induction evs as [|ev evs IH]; intros st; simpl;
    [reflexivity|].
  rewrite IH, running_deliver by assumption; reflexivity.
Qed.

Lemma standard_hooks_audio out ff : standard_hooks (audio_opts out ff).
Proof. split; reflexivity. Qed.

Lemma standard_hooks_mode m out ff fmt : standard_hooks (mode_opts m out ff fmt).
Proof. destruct m; split; reflexivity. Qed.

(** The renderer ends at its next turn once [stop_spinner] has cleared the
    flag, which is why the [join] that follows returns. *)
Lemma renderer_ends_after_stop st idx :
  _spinner_loop_turn (spinner_running (stop_spinner st)) idx = None.
Proof. rewrite running_stop_spinner; reflexivity. Qed.

Lemma renderer_index_in_range idx frame next :
  _spinner_loop_turn true idx = Some (frame, next) ->
  next < List.length frames.
Proof.
  intros H.
  assert (Hn : next = (idx + 1) mod List.length frames)
    by (unfold _spinner_loop_turn in H; congruence).
  rewrite Hn; apply Nat.mod_upper_bound; simpl; lia.
Qed.

(** ** Coherence of flag and threads is kept by every operation *)

Lemma coherent_initial : coherent initial_state.
Proof. reflexivity. Qed.

Lemma coherent_same st st' :
  spinner_running st' = spinner_running st ->
  spinner_thread st' = spinner_thread st ->
  alive st' = alive st ->
  coherent st -> coherent st'.
Proof. unfold coherent; intros -> -> ->; trivial. Qed.

Lemma coherent_start_spinner st : coherent st -> coherent (start_spinner st).
Proof.
  unfold coherent, start_spinner.
  destruct (spinner_running st) eqn:E; simpl; [rewrite E; trivial|].
  intros ->; exists (spawned st); split; reflexivity.
Qed.

Lemma coherent_stop_spinner st : coherent st -> coherent (stop_spinner st).
Proof.
  unfold coherent, stop_spinner.
  destruct (spinner_running st) eqn:E; simpl; [|rewrite E; trivial].
  intros [t [-> Ha]]; simpl; rewrite Ha; simpl.
  destruct (Nat.eq_dec t t); [reflexivity|contradiction].
Qed.

Lemma coherent_call_hook h d st : coherent st -> coherent (call_hook h d st).
Proof.
  destruct h; simpl.
  - unfold print_progress.
    destruct (status d =? "downloading"); [apply coherent_same; reflexivity|].
    destruct (status d =? "finished"); [apply coherent_same; reflexivity|].
    trivial.
  - unfold post_hook_spinner.
    destruct (status d =? "started"); [apply coherent_start_spinner|].
    destruct (status d =? "finished"); [apply coherent_stop_spinner|trivial].
Qed.

Lemma coherent_deliver opts st ev : coherent st -> coherent (deliver opts st ev).
Proof.
  destruct ev as [d|d]; simpl; unfold call_hooks.
  - generalize (progress_hooks opts) as hs; intros hs; revert st.
    induction hs as [|h hs IH]; intros st H; simpl; trivial.
    apply IH, coherent_call_hook, H.
  - generalize (postprocessor_hooks opts) as hs; intros hs; revert st.
    induction hs as [|h hs IH]; intros st H; simpl; trivial.
    apply IH, coherent_call_hook, H.
Qed.

Lemma coherent_deliver_all opts evs st :
  coherent st -> coherent (fold_left (deliver opts) evs st).
Proof.
  revert st; induction evs as [|ev evs IH]; intros st H; simpl; trivial.
  apply IH, coherent_deliver, H.
Qed.

(** ** One request to yt_dlp *)

Section Requests.

Variable ydl : Service.

Lemma request_result opts urls st :
  fst (YoutubeDL_download ydl opts urls st)
  = result (ydl (List.length (calls st)) opts urls).
Proof. reflexivity. Qed.

Lemma request_calls opts urls st :
  calls (snd (YoutubeDL_download ydl opts urls st)) = (calls st ++ [opts])%list.
Proof. unfold YoutubeDL_download; simpl; apply calls_deliver_all. Qed.

Lemma request_extends opts urls st :
  extends st (snd (YoutubeDL_download ydl opts urls st)).
Proof.
  unfold YoutubeDL_download; simpl.
  eapply extends_trans; [|apply extends_deliver_all].
  apply extends_same; reflexivity.
Qed.

Lemma request_running opts urls st :
  standard_hooks opts ->
  spinner_running (snd (YoutubeDL_download ydl opts urls st))
  = fold_left spinner_after
      (events (ydl (List.length (calls st)) opts urls)) (spinner_running st).
Proof.
  intros H; unfold YoutubeDL_download; simpl.
  rewrite running_deliver_all by assumption; reflexivity.
Qed.

Lemma request_coherent opts urls st :
  coherent st -> coherent (snd (YoutubeDL_download ydl opts urls st)).
Proof.
  intros H; unfold YoutubeDL_download; simpl.
  apply coherent_deliver_all; revert H; apply coherent_same; reflexivity.
Qed.

(** The same facts for one attempt of a video mode. *)
Lemma attempt_result m fmt url out ff st :
  fst (attempt ydl m fmt url out ff st)
  = result (ydl (List.length (calls st)) (mode_opts m out ff fmt) [url]).
Proof. reflexivity. Qed.

Lemma attempt_calls m fmt url out ff st :
  calls (snd (attempt ydl m fmt url out ff st))
  = (calls st ++ [mode_opts m out ff fmt])%list.
Proof. unfold attempt; rewrite request_calls; reflexivity. Qed.

Lemma attempt_stdout m fmt url out ff st :
  exists hooks_out,
    stdout (snd (attempt ydl m fmt url out ff st))
    = (stdout st ++ line (trying_line m fmt) :: hooks_out)%list.
Proof.
  unfold attempt.
  destruct (request_extends (mode_opts m out ff fmt) [url]
              (print (trying_line m fmt) st)) as [o Ho].
  exists o; rewrite Ho, stdout_print, <- app_assoc; reflexivity.
Qed.

Lemma attempt_extends m fmt url out ff st :
  extends st (snd (attempt ydl m fmt url out ff st)).
Proof. destruct (attempt_stdout m fmt url out ff st) as [o Ho]; eexists; eauto. Qed.

(** The loop of either mode, one step unfolded. *)
Lemma download_loop_nil m url out ff st :
  download_loop ydl m [] url out ff st = (None, print (exhausted_line m) st).
Proof. destruct m; reflexivity. Qed.

Lemma download_loop_cons m fmt rest url out ff st :
  download_loop ydl m (fmt :: rest) url out ff st =
  match attempt ydl m fmt url out ff st with
  | (Returned, st') => (None, print (success_line m) st')
  | (Raised e, st') =>
      if is_DownloadError e then
        download_loop ydl m rest url out ff (print (failed_line m fmt e) st')
      else if is_Exception e then (None, print (error_line e) st')
      else (Some e, st')
  end.
Proof. destruct m; reflexivity. Qed.

End Requests.

(** ** Negotiation over a list of formats *)

Section Negotiation.

Variable ydl : Service.
Variable m : VideoMode.
Variables url out : string.
Variable ff : option string.

#[local] Abbreviation run plan st := (download_loop ydl m plan url out ff st).
#[local] Abbreviation go fmt st := (attempt ydl m fmt url out ff st).
#[local] Abbreviation opts := (mode_opts m out ff).
#[local] Abbreviation answer n fmt := (result (ydl n (opts fmt) [url])).
#[local] Abbreviation FirstAttempt := (FirstAttempt ydl m url out ff).
#[local] Abbreviation logged := (logged ydl m url out ff).
#[local] Abbreviation recoverable_before := (recoverable_before ydl m url out ff).

(** What the first attempt decides, case by case. *)
Lemma run_first_returned fmt rest st :
  answer (List.length (calls st)) fmt = Returned ->
  run (fmt :: rest) st = (None, print (success_line m) (snd (go fmt st))).
Proof.
  intros H; rewrite download_loop_cons.
  rewrite <- attempt_result in H.
  destruct (go fmt st) as [r st1]; simpl in *; subst r; reflexivity.
Qed.

Lemma run_first_recoverable fmt rest st e :
  answer (List.length (calls st)) fmt = Raised e ->
  is_DownloadError e = true ->
  run (fmt :: rest) st
  = run rest (print (failed_line m fmt e) (snd (go fmt st))).
Proof.
  intros H He; rewrite download_loop_cons.
  rewrite <- attempt_result in H.
  destruct (go fmt st) as [r st1]; simpl in *; subst r.
  rewrite He; reflexivity.
Qed.

Lemma run_first_unrecoverable fmt rest st e :
  answer (List.length (calls st)) fmt = Raised e ->
  is_DownloadError e = false ->
  is_Exception e = true ->
  run (fmt :: rest) st = (None, print (error_line e) (snd (go fmt st))).
Proof.
  intros H He Hx; rewrite download_loop_cons.
  rewrite <- attempt_result in H.
  destruct (go fmt st) as [r st1]; simpl in *; subst r.
  rewrite He, Hx; reflexivity.
Qed.

Lemma run_first_escapes fmt rest st e :
  answer (List.length (calls st)) fmt = Raised e ->
  is_Exception e = false ->
  run (fmt :: rest) st = (Some e, snd (go fmt st)).
Proof.
  intros H Hx; rewrite download_loop_cons.
  rewrite <- attempt_result in H.
  destruct (go fmt st) as [r st1]; simpl in *; subst r.
  assert (He : is_DownloadError e = false).
  { unfold is_DownloadError, is_Exception in *.
    destruct (exc_class e); congruence. }
  rewrite He, Hx; reflexivity.
Qed.


Lemma first_attempt fmt rest st : FirstAttempt fmt rest st.
Proof.
  destruct (answer (List.length (calls st)) fmt) as [|e] eqn:Ha.
  - apply first_returned; [assumption|apply run_first_returned, Ha].
  - destruct (is_DownloadError e) eqn:He.
    + eapply first_recoverable; eauto using run_first_recoverable.
    + destruct (is_Exception e) eqn:Hx.
      * eapply first_unrecoverable; eauto using run_first_unrecoverable.
      * eapply first_escapes; eauto using run_first_escapes.
Qed.

(** The calls after a logged failure of the first attempt. *)
Lemma calls_after_failure fmt e st :
  calls (print (failed_line m fmt e) (snd (go fmt st)))
  = (calls st ++ [opts fmt])%list.
Proof. unfold print; rewrite calls_print_end; apply attempt_calls. Qed.

Lemma length_calls_after_failure fmt e st :
  List.length (calls (print (failed_line m fmt e) (snd (go fmt st))))
  = S (List.length (calls st)).
Proof. rewrite calls_after_failure, length_app; simpl; lia. Qed.

Lemma calls_after_print s fmt st :
  calls (print s (snd (go fmt st))) = (calls st ++ [opts fmt])%list.
Proof. unfold print; rewrite calls_print_end; apply attempt_calls. Qed.

(** The loop requests a prefix of the plan, in plan order. *)
Lemma run_calls plan st :
  exists n, n <= List.length plan /\
    calls (snd (run plan st)) = (calls st ++ map opts (firstn n plan))%list.
Proof.
  revert st; induction plan as [|fmt rest IH]; intros st.
  - exists 0; split; [lia|].
    rewrite download_loop_nil; simpl; symmetry; apply app_nil_r.
  - destruct (first_attempt fmt rest st) as [_ ->|e _ _ ->|e _ _ _ ->|e _ _ ->].
    + exists 1; split; [simpl; lia|]. cbn [snd].
      rewrite calls_after_print; reflexivity.
    + destruct (IH (print (failed_line m fmt e) (snd (go fmt st))))
        as [n [Hn Hc]].
      exists (S n); split; [simpl; lia|].
      rewrite Hc, calls_after_failure, <- app_assoc; reflexivity.
    + exists 1; split; [simpl; lia|]. cbn [snd].
      rewrite calls_after_print; reflexivity.
    + exists 1; split; [simpl; lia|]. cbn [snd].
      rewrite attempt_calls; reflexivity.
Qed.

Lemma run_extends plan st : extends st (snd (run plan st)).
Proof.
  revert st; induction plan as [|fmt rest IH]; intros st.
  - rewrite download_loop_nil; apply extends_print.
  - destruct (first_attempt fmt rest st) as [_ ->|e _ _ ->|e _ _ _ ->|e _ _ ->];
      cbn [snd].
    + eapply extends_trans; [apply attempt_extends|apply extends_print].
    + eapply extends_trans; [apply attempt_extends|].
      eapply extends_trans; [apply extends_print|apply IH].
    + eapply extends_trans; [apply attempt_extends|apply extends_print].
    + apply attempt_extends.
Qed.


Lemma logged_extends st plan i fmt e s1 s2 :
  logged st plan i fmt e s1 -> extends s1 s2 -> logged st plan i fmt e s2.
Proof.
  intros [s [h [Hc [Hs He]]]] H12; exists s, h; repeat split; trivial.
  eapply extends_trans; eassumption.
Qed.


(** Past [k] recoverable failures the loop stands at attempt [k], with the
    first [k] formats requested and every failure logged. *)
Lemma run_past_failures k : forall plan st,
  k <= List.length plan ->
  recoverable_before st plan k ->
  exists st_k,
    calls st_k = (calls st ++ map opts (firstn k plan))%list /\
    extends st st_k /\
    run plan st = run (skipn k plan) st_k /\
    (forall i fmt_i e, i < k -> nth_error plan i = Some fmt_i ->
       answer (List.length (calls st) + i) fmt_i = Raised e ->
       logged st plan i fmt_i e st_k).
Proof.
  induction k as [|k IH]; intros plan st Hk Hrec.
  - exists st; repeat split.
    + simpl; symmetry; apply app_nil_r.
    + apply extends_refl.
    + intros i fmt_i e Hi; lia.
  - destruct plan as [|f rest]; [simpl in Hk; lia|].
    destruct (Hrec 0 f) as [e0 [Ha0 He0]]; [lia|reflexivity|].
    rewrite Nat.add_0_r in Ha0.
    set (st1 := print (failed_line m f e0) (snd (go f st))).
    assert (Hlen : List.length (calls st1) = S (List.length (calls st)))
      by apply length_calls_after_failure.
    destruct (IH rest st1) as [st_k [Hc [Hx [Hrun Hlog]]]].
    + simpl in Hk; lia.
    + intros i fmt_i Hi Hn. rewrite Hlen.
      destruct (Hrec (S i) fmt_i) as [e [Ha He]]; [lia|exact Hn|].
      exists e; split; trivial.
      rewrite <- Ha; f_equal; f_equal; lia.
    + exists st_k; split; [|split; [|split]].
      * rewrite Hc; unfold st1; rewrite calls_after_failure, <- app_assoc.
        reflexivity.
      * eapply extends_trans; [|exact Hx].
        eapply extends_trans; [apply attempt_extends|apply extends_print].
      * rewrite (run_first_recoverable f rest st e0 Ha0 He0); exact Hrun.
      * intros [|i] fmt_i e Hi Hn Ha.
        -- simpl in Hn; injection Hn as <-.
           rewrite Nat.add_0_r, Ha0 in Ha; injection Ha as <-.
           destruct (attempt_stdout ydl m f url out ff st) as [h Hh].
           exists st, h; repeat split; trivial.
           simpl; symmetry; apply app_nil_r.
        -- destruct (Hlog i fmt_i e) as [s [h [Hcs [Hs He]]]];
             [lia|exact Hn| |].
           ++ rewrite Hlen, <- Ha; f_equal; f_equal; lia.
           ++ exists s, h; repeat split; trivial.
              rewrite Hcs; unfold st1.
              rewrite calls_after_failure, <- app_assoc; reflexivity.
Qed.

(** If attempt [k] was requested, every attempt before it had failed with a
    [DownloadError]. *)
Lemma requested_after_failures : forall plan st k,
  List.length (calls st) + k < List.length (calls (snd (run plan st))) ->
  recoverable_before st plan k.
Proof.
  induction plan as [|f rest IH]; intros st k Hk i fmt_i Hi Hn.
  - destruct i; discriminate.
  - assert (Hone : forall s, calls s = (calls st ++ [opts f])%list ->
                     snd (run (f :: rest) st) = s -> False).
    { intros s Hs Hr; rewrite Hr, Hs, length_app in Hk; simpl in Hk; lia. }
    destruct (first_attempt f rest st) as [_ Hr|e Ha He Hr|e _ _ _ Hr|e _ _ Hr].
    + exfalso; eapply Hone; [|rewrite Hr; reflexivity].
      apply calls_after_print.
    + destruct i as [|i].
      * simpl in Hn; injection Hn as <-.
        exists e; rewrite Nat.add_0_r; split; assumption.
      * destruct k as [|k]; [lia|].
        rewrite Hr in Hk.
        specialize (IH (print (failed_line m f e) (snd (go f st))) k).
        rewrite length_calls_after_failure in IH.
        assert (Hk' : S (List.length (calls st)) + k
                      < List.length (calls (snd (run rest
                          (print (failed_line m f e) (snd (go f st)))))))
          by lia.
        destruct (IH Hk' i fmt_i) as [e' [Ha' He']]; [lia|exact Hn|].
        rewrite length_calls_after_failure in Ha'.
        exists e'; split; trivial.
        rewrite <- Ha'; f_equal; f_equal; lia.
    + exfalso; eapply Hone; [|rewrite Hr; reflexivity].
      apply calls_after_print.
    + exfalso; eapply Hone; [|rewrite Hr; reflexivity].
      apply attempt_calls.
Qed.

Lemma nth_error_skipn_cons (plan : list string) k fmt :
  nth_error plan k = Some fmt -> skipn k plan = fmt :: skipn (S k) plan.
Proof.
  revert k; induction plan as [|f rest IH]; intros [|k] H; try discriminate.
  - injection H as ->; reflexivity.
  - simpl in *; apply IH, H.
Qed.

Lemma firstn_S_nth (plan : list string) k fmt :
  nth_error plan k = Some fmt ->
  firstn (S k) plan = (firstn k plan ++ [fmt])%list.
Proof.
  revert k; induction plan as [|f rest IH]; intros [|k] H; try discriminate.
  - injection H as ->; reflexivity.
  - simpl in *; f_equal; apply IH, H.
Qed.

Lemma requested_in_plan (plan : list string) k fmt :
  nth_error plan k = Some fmt -> k <= List.length plan.
Proof.
  intros H; apply Nat.lt_le_incl, nth_error_Some; rewrite H; discriminate.
Qed.

Lemma length_calls_at st st_k (plan : list string) k :
  k <= List.length plan ->
  calls st_k = (calls st ++ map opts (firstn k plan))%list ->
  List.length (calls st_k) = List.length (calls st) + k.
Proof.
  intros Hk ->; rewrite length_app, length_map, length_firstn; lia.
Qed.

(** The loop stands at attempt [k] as soon as the attempts before it failed
    recoverably. *)
Lemma run_at_attempt plan st k fmt :
  nth_error plan k = Some fmt ->
  recoverable_before st plan k ->
  exists st_k,
    calls st_k = (calls st ++ map opts (firstn k plan))%list /\
    List.length (calls st_k) = List.length (calls st) + k /\
    extends st st_k /\
    run plan st = run (fmt :: skipn (S k) plan) st_k /\
    (forall i fmt_i e, i < k -> nth_error plan i = Some fmt_i ->
       answer (List.length (calls st) + i) fmt_i = Raised e ->
       logged st plan i fmt_i e st_k).
Proof.
  intros Hn Hrec.
  pose proof (requested_in_plan plan k fmt Hn) as Hk.
  destruct (run_past_failures k plan st Hk Hrec) as [st_k [Hc [Hx [Hr Hl]]]].
  exists st_k; repeat split; trivial.
  - eapply length_calls_at; eassumption.
  - rewrite Hr, (nth_error_skipn_cons plan k fmt Hn); reflexivity.
Qed.

(** C3: negotiation short-circuits on the first success.  In either video
    mode, for every plan and every index [k]: if attempt [k] is requested
    and the service returns normally for it, then the requests made are
    exactly the first [k+1] formats of the plan (none after [k]), the
    function returns, and the last thing it does is print its success line
    right after the run of attempt [k]. *)
Theorem negotiation_short_circuits plan st k fmt :
  nth_error plan k = Some fmt ->
  List.length (calls st) + k < List.length (calls (snd (run plan st))) ->
  answer (List.length (calls st) + k) fmt = Returned ->
  fst (run plan st) = None /\
  calls (snd (run plan st)) = (calls st ++ map opts (firstn (S k) plan))%list /\
  exists st_k,
    calls st_k = (calls st ++ map opts (firstn k plan))%list /\
    snd (run plan st) = print (success_line m) (snd (go fmt st_k)).
Proof.
  intros Hn Hreq Hans.
  pose proof (requested_after_failures plan st k Hreq) as Hrec.
  destruct (run_at_attempt plan st k fmt Hn Hrec)
    as [st_k [Hc [Hlen [_ [Hr _]]]]].
  rewrite <- Hlen in Hans.
  rewrite Hr, (run_first_returned fmt _ st_k Hans); cbn [fst snd].
  split; [reflexivity|split].
  - rewrite calls_after_print, Hc, (firstn_S_nth plan k fmt Hn).
    rewrite map_app, <- app_assoc; reflexivity.
  - exists st_k; split; trivial.
Qed.

(** C4: negotiation continues past recoverable failures in plan order.  If
    attempts [0 .. k-1] each fail with a [DownloadError] and the service
    returns normally for attempt [k], then the first [k+1] formats of the
    plan are requested, in plan order and nothing else, every failure is
    logged with its attempt (the attempt announces its format, runs, and
    its failure line with the reason follows), and the function returns
    after printing its success line right after the run of attempt [k]. *)
Theorem negotiation_continues_past_failures plan st k fmt :
  nth_error plan k = Some fmt ->
  recoverable_before st plan k ->
  answer (List.length (calls st) + k) fmt = Returned ->
  fst (run plan st) = None /\
  calls (snd (run plan st)) = (calls st ++ map opts (firstn (S k) plan))%list /\
  (forall i fmt_i e, i < k -> nth_error plan i = Some fmt_i ->
     answer (List.length (calls st) + i) fmt_i = Raised e ->
     logged st plan i fmt_i e (snd (run plan st))) /\
  exists st_k,
    calls st_k = (calls st ++ map opts (firstn k plan))%list /\
    snd (run plan st) = print (success_line m) (snd (go fmt st_k)).
Proof.
  intros Hn Hrec Hans.
  destruct (run_at_attempt plan st k fmt Hn Hrec)
    as [st_k [Hc [Hlen [_ [Hr Hlog]]]]].
  rewrite <- Hlen in Hans.
  rewrite Hr, (run_first_returned fmt _ st_k Hans); cbn [fst snd].
  split; [reflexivity|split; [|split]].
  - rewrite calls_after_print, Hc, (firstn_S_nth plan k fmt Hn).
    rewrite map_app, <- app_assoc; reflexivity.
  - intros i fmt_i e Hi Hni Ha.
    apply (logged_extends st plan i fmt_i e st_k); [apply Hlog; assumption|].
    eapply extends_trans; [apply attempt_extends|apply extends_print].
  - exists st_k; split; trivial.
Qed.

(** A plan that is not empty has its first format requested, and then a
    front of the rest. *)
Lemma run_calls_nonempty fmt rest st :
  exists n, n <= List.length rest /\
    calls (snd (run (fmt :: rest) st))
    = (calls st ++ map opts (fmt :: firstn n rest))%list.
Proof.
  destruct (first_attempt fmt rest st)
    as [_ ->|e _ _ ->|e _ _ _ ->|e _ _ ->]; cbn [snd].
  - exists 0; split; [lia|apply calls_after_print].
  - destruct (run_calls rest (print (failed_line m fmt e) (snd (go fmt st))))
      as [n [Hn Hc]].
    exists n; split; [exact Hn|].
    rewrite Hc, calls_after_failure, <- app_assoc; reflexivity.
  - exists 0; split; [lia|apply calls_after_print].
  - exists 0; split; [lia|apply attempt_calls].
Qed.

Lemma skipn_past_end (plan : list string) k :
  nth_error plan k = None -> skipn k plan = [].
Proof. intros H; apply skipn_all2, nth_error_None, H. Qed.

(** C5, as the code has it: negotiation aborts on an [Exception] that is
    not a [DownloadError].  If attempt [k] is requested and the service
    raises such an exception, then no format after [k] is requested, the
    function returns, and the last line it prints is the error line
    carrying the text of that exception.  A failure raised as a
    [DownloadError] does not abort, whatever its cause: the next format of
    the plan, if there is one, is requested, and after the last format the
    function returns on the fixed closing line. *)
Theorem negotiation_aborts_on_unrecoverable plan st k fmt e :
  nth_error plan k = Some fmt ->
  List.length (calls st) + k < List.length (calls (snd (run plan st))) ->
  answer (List.length (calls st) + k) fmt = Raised e ->
  is_Exception e = true ->
  (is_DownloadError e = false ->
     fst (run plan st) = None /\
     calls (snd (run plan st))
     = (calls st ++ map opts (firstn (S k) plan))%list /\
     last (stdout (snd (run plan st))) ""
     = line ("❌ Erro inesperado: " ++ exc_str e) /\
     exists st_k,
       calls st_k = (calls st ++ map opts (firstn k plan))%list /\
       snd (run plan st) = print (error_line e) (snd (go fmt st_k))) /\
  (is_DownloadError e = true ->
     (forall next, nth_error plan (S k) = Some next ->
        List.length (calls st) + S k
        < List.length (calls (snd (run plan st)))) /\
     (nth_error plan (S k) = None ->
        fst (run plan st) = None /\
        last (stdout (snd (run plan st))) "" = line (exhausted_line m))).
Proof.
  intros Hn Hreq Hans Hx.
  pose proof (requested_after_failures plan st k Hreq) as Hrec.
  destruct (run_at_attempt plan st k fmt Hn Hrec)
    as [st_k [Hc [Hlen [_ [Hr _]]]]].
  rewrite <- Hlen in Hans.
  split; intros He.
  - rewrite Hr, (run_first_unrecoverable fmt _ st_k e Hans He Hx).
    cbn [fst snd]; split; [reflexivity|split; [|split]].
    + rewrite calls_after_print, Hc, (firstn_S_nth plan k fmt Hn).
      rewrite map_app, <- app_assoc; reflexivity.
    + rewrite stdout_print, last_last; reflexivity.
    + exists st_k; split; trivial.
  - rewrite Hr, (run_first_recoverable fmt _ st_k e Hans He).
    split.
    + intros next Hnext.
      rewrite (nth_error_skipn_cons plan (S k) next Hnext).
      destruct (run_calls_nonempty next (skipn (S (S k)) plan)
                  (print (failed_line m fmt e) (snd (go fmt st_k))))
        as [n [_ Hcalls]].
      rewrite Hcalls, length_app, length_calls_after_failure, Hlen.
      simpl; lia.
    + intros Hnone.
      rewrite (skipn_past_end plan (S k) Hnone), download_loop_nil.
      cbn [fst snd]; split; [reflexivity|].
      rewrite stdout_print, last_last; reflexivity.
Qed.

(** C6, as the code has it: when every attempt of the plan fails with a
    [DownloadError], every format of the plan is requested in order, each
    failure is logged with its attempt as the loop goes (announcement of
    the format, then the failure line with the reason), and the function
    returns after printing one fixed closing line, which is the same
    whatever the plan and the reasons, and names none of the selectors of
    the mode. *)
Theorem exhaustion_prints_fixed_line plan st :
  recoverable_before st plan (List.length plan) ->
  fst (run plan st) = None /\
  calls (snd (run plan st)) = (calls st ++ map opts plan)%list /\
  (forall i fmt_i e, nth_error plan i = Some fmt_i ->
     answer (List.length (calls st) + i) fmt_i = Raised e ->
     logged st plan i fmt_i e (snd (run plan st))) /\
  last (stdout (snd (run plan st))) "" = line (exhausted_line m) /\
  forallb (fun fmt => negb (is_substring fmt (exhausted_line m))) (plan_for m)
  = true.
Proof.
  intros Hrec.
  destruct (run_past_failures (List.length plan) plan st (le_n _) Hrec)
    as [st_k [Hc [_ [Hr Hlog]]]].
  rewrite Hr, skipn_all, download_loop_nil; cbn [fst snd].
  rewrite firstn_all in Hc.
  split; [reflexivity|split; [|split; [|split]]].
  - unfold print; rewrite calls_print_end; exact Hc.
  - intros i fmt_i e Hni Ha.
    apply (logged_extends st plan i fmt_i e st_k); [|apply extends_print].
    apply Hlog; trivial.
    apply nth_error_Some; rewrite Hni; discriminate.
  - rewrite stdout_print, last_last; reflexivity.
  - destruct m; vm_compute; reflexivity.
Qed.

(** C2, as the code has it: an attempt is classified by the class of the
    exception alone.  For every [Exception] the service raises during an
    attempt of a video mode: a [DownloadError], whatever its cause, is
    logged and the loop goes on with the next format; any other
    [Exception], whatever its cause, is reported, the function returns and
    no further format is requested. *)
Theorem classification_by_exception_class fmt rest st e :
  answer (List.length (calls st)) fmt = Raised e ->
  is_Exception e = true ->
  (is_DownloadError e = true ->
     run (fmt :: rest) st
     = run rest (print (failed_line m fmt e) (snd (go fmt st)))) /\
  (is_DownloadError e = false ->
     run (fmt :: rest) st = (None, print (error_line e) (snd (go fmt st))) /\
     calls (snd (run (fmt :: rest) st)) = (calls st ++ [opts fmt])%list).
Proof.
  intros Hans Hx; split; intros He.
  - apply run_first_recoverable; assumption.
  - rewrite (run_first_unrecoverable fmt rest st e Hans He Hx); cbn [snd].
    split; [reflexivity|apply calls_after_print].
Qed.

End Negotiation.

(** ** The three download functions as a whole *)


Lemma download_mode_loop ydl m url out ff st :
  download_mode ydl m url out ff st
  = download_loop ydl m (plan_for m) url out ff st.
Proof. destruct m; reflexivity. Qed.


Section Totality.

Variable ydl : Service.
Variable m : VideoMode.
Variables url out : string.
Variable ff : option string.

#[local] Abbreviation run' plan st := (download_loop ydl m plan url out ff st).
#[local] Abbreviation go' fmt st := (attempt ydl m fmt url out ff st).

Lemma run_returns plan st :
  raises_only_Exception ydl -> fst (run' plan st) = None.
Proof.
  intros H; revert st; induction plan as [|fmt rest IH]; intros st.
  - rewrite download_loop_nil; reflexivity.
  - destruct (first_attempt ydl m url out ff fmt rest st)
      as [_ ->|e _ _ ->|e _ _ _ ->|e Ha Hx _]; trivial.
    apply H in Ha; congruence.
Qed.

Lemma attempt_idle fmt st :
  finishes_what_it_starts ydl ->
  spinner_running st = false ->
  spinner_running (snd (go' fmt st)) = false.
Proof.
  intros H Hst; unfold attempt.
  rewrite request_running by apply standard_hooks_mode.
  unfold print; rewrite running_print_end, Hst; apply H.
Qed.

Lemma run_idle plan st :
  finishes_what_it_starts ydl ->
  spinner_running st = false ->
  spinner_running (snd (run' plan st)) = false.
Proof.
  intros H; revert st; induction plan as [|fmt rest IH]; intros st Hst.
  - rewrite download_loop_nil; exact Hst.
  - pose proof (attempt_idle fmt st H Hst) as Hgo.
    destruct (first_attempt ydl m url out ff fmt rest st)
      as [_ ->|e _ _ ->|e _ _ _ ->|e _ _ ->]; cbn [snd]; trivial.
    apply IH; exact Hgo.
Qed.

Lemma emitted_between st s x final :
  extends st s -> extends (print x s) final ->
  In (line x) (emitted st final).
Proof.
  intros [a Ha] [b Hb].
  rewrite (emitted_extends st final (a ++ line x :: b)).
  - apply in_or_app; right; left; reflexivity.
  - rewrite Hb, stdout_print, Ha, <- !app_assoc; reflexivity.
Qed.

Lemma run_reports plan st i fmt e :
  nth_error plan i = Some fmt ->
  List.length (calls st) + i < List.length (calls (snd (run' plan st))) ->
  result (ydl (List.length (calls st) + i) (mode_opts m out ff fmt) [url])
  = Raised e ->
  is_Exception e = true ->
  In (line (failed_line m fmt e)) (emitted st (snd (run' plan st))) \/
  In (line (error_line e)) (emitted st (snd (run' plan st))).
Proof.
  intros Hn Hreq Hans Hx.
  pose proof (requested_after_failures ydl m url out ff plan st i Hreq) as Hrec.
  destruct (run_at_attempt ydl m url out ff plan st i fmt Hn Hrec)
    as [st_i [_ [Hlen [Hext [Hr _]]]]].
  rewrite <- Hlen in Hans.
  assert (Hgo : extends st (snd (go' fmt st_i))).
  { eapply extends_trans; [exact Hext|apply attempt_extends]. }
  destruct (is_DownloadError e) eqn:He.
  - left; rewrite Hr.
    rewrite (run_first_recoverable ydl m url out ff fmt _ st_i e Hans He).
    eapply emitted_between; [exact Hgo|apply run_extends].
  - right; rewrite Hr.
    rewrite (run_first_unrecoverable ydl m url out ff fmt _ st_i e Hans He Hx).
    cbn [snd]; eapply emitted_between; [exact Hgo|apply extends_refl].
Qed.

End Totality.

Lemma coherent_run ydl m plan url out ff st :
  coherent st -> coherent (snd (download_loop ydl m plan url out ff st)).
Proof.
  revert st; induction plan as [|fmt rest IH]; intros st H.
  - rewrite download_loop_nil; revert H; apply coherent_same; reflexivity.
  - assert (Hgo : coherent (snd (attempt ydl m fmt url out ff st))).
    { apply request_coherent; revert H; apply coherent_same; reflexivity. }
    destruct (first_attempt ydl m url out ff fmt rest st)
      as [_ ->|e _ _ ->|e _ _ _ ->|e _ _ ->]; cbn [snd].
    + revert Hgo; apply coherent_same; reflexivity.
    + apply IH; revert Hgo; apply coherent_same; reflexivity.
    + revert Hgo; apply coherent_same; reflexivity.
    + exact Hgo.
Qed.

Lemma download_audio_cases ydl url out ff st :
  let st1 := snd (YoutubeDL_download ydl (audio_opts out ff) [url]
                    (print (NL ++ "⏳ Baixando áudio...") st)) in
  match result (ydl (List.length (calls st)) (audio_opts out ff) [url]) with
  | Returned =>
      download_audio ydl url out ff st
      = (None, print "✅ Download de áudio concluído!" st1)
  | Raised e =>
      download_audio ydl url out ff st
      = if is_Exception e
        then (None,
              print (NL ++ "❌ Erro durante o download de áudio: " ++ exc_str e)
                    st1)
        else (Some e, st1)
  end.
Proof.
  unfold download_audio, YoutubeDL_download; simpl.
  destruct (result _); reflexivity.
Qed.

Lemma download_audio_running ydl url out ff st :
  spinner_running (snd (download_audio ydl url out ff st))
  = fold_left spinner_after
      (events (ydl (List.length (calls st)) (audio_opts out ff) [url]))
      (spinner_running st).
Proof.
  pose proof (download_audio_cases ydl url out ff st) as H; cbv zeta in H.
  pose proof (request_running ydl (audio_opts out ff) [url]
                (print (NL ++ "⏳ Baixando áudio...") st)
                (standard_hooks_audio out ff)) as Hr.
  destruct (result _) as [|e]; rewrite H.
  - exact Hr.
  - destruct (is_Exception e); exact Hr.
Qed.

Lemma coherent_download_audio ydl url out ff st :
  coherent st -> coherent (snd (download_audio ydl url out ff st)).
Proof.
  intros Hc.
  pose proof (download_audio_cases ydl url out ff st) as H; cbv zeta in H.
  assert (Hr : coherent (snd (YoutubeDL_download ydl (audio_opts out ff) [url]
                                (print (NL ++ "⏳ Baixando áudio...") st)))).
  { apply request_coherent; revert Hc; apply coherent_same; reflexivity. }
  destruct (result _) as [|e]; rewrite H.
  - revert Hr; apply coherent_same; reflexivity.
  - destruct (is_Exception e); [|exact Hr].
    revert Hr; apply coherent_same; reflexivity.
Qed.

(** ** The remaining claims *)

Lemma attempt_running ydl m fmt url out ff st :
  spinner_running (snd (attempt ydl m fmt url out ff st))
  = fold_left spinner_after
      (events (ydl (List.length (calls st)) (mode_opts m out ff fmt) [url]))
      (spinner_running st).
Proof.
  unfold attempt.
  rewrite request_running by apply standard_hooks_mode; reflexivity.
Qed.

(** The flag after a loop is what the events of its requests leave. *)
Lemma run_running ydl m url out ff plan : forall st,
  exists n,
    calls (snd (download_loop ydl m plan url out ff st))
    = (calls st ++ map (mode_opts m out ff) (firstn n plan))%list /\
    spinner_running (snd (download_loop ydl m plan url out ff st))
    = fold_left spinner_after
        (events_of_requests ydl (List.length (calls st))
           (map (mode_opts m out ff) (firstn n plan)) [url])
        (spinner_running st).
Proof.
  induction plan as [|fmt rest IH]; intros st.
  - exists 0; rewrite download_loop_nil; cbn [snd firstn map].
    split; [symmetry; apply app_nil_r|reflexivity].
  - pose proof (attempt_running ydl m fmt url out ff st) as Hgo.
    destruct (first_attempt ydl m url out ff fmt rest st)
      as [_ ->|e _ _ ->|e _ _ _ ->|e _ _ ->]; cbn [snd].
    + exists 1; split; [apply calls_after_print|].
      cbn [firstn map events_of_requests]; rewrite app_nil_r; exact Hgo.
    + destruct (IH (print (failed_line m fmt e)
                      (snd (attempt ydl m fmt url out ff st))))
        as [n [Hc Hf]].
      exists (S n); split.
      * rewrite Hc, calls_after_failure, <- app_assoc; reflexivity.
      * rewrite Hf, length_calls_after_failure.
        cbn [firstn map events_of_requests]; rewrite fold_left_app.
        f_equal; exact Hgo.
    + exists 1; split; [apply calls_after_print|].
      cbn [firstn map events_of_requests]; rewrite app_nil_r; exact Hgo.
    + exists 1; split; [apply attempt_calls|].
      cbn [firstn map events_of_requests]; rewrite app_nil_r; exact Hgo.
Qed.

(** C1, as the code has it: the download functions never start or stop
    the spinner themselves.  After [download_audio], [download_video] and
    [download_video_protools], whatever the state before and whatever the
    outcome (success, exhaustion, a reported error, an exception let out),
    the flag [spinner_running] is exactly what the events of the requests
    made leave behind: a postprocessor "started" raises it, a "finished"
    lowers it, nothing else touches it.  So, when the spinner is idle
    before the call and every answer of the service sends a "finished"
    after its last "started", the spinner is idle after each of the three
    functions. *)
Theorem spinner_idle_when_service_finishes ydl url out ff :
  (forall st,
     spinner_running (snd (download_audio ydl url out ff st))
     = fold_left spinner_after
         (events (ydl (List.length (calls st)) (audio_opts out ff) [url]))
         (spinner_running st)) /\
  (forall m st,
     exists n,
       calls (snd (download_mode ydl m url out ff st))
       = (calls st ++ map (mode_opts m out ff) (firstn n (plan_for m)))%list /\
       spinner_running (snd (download_mode ydl m url out ff st))
       = fold_left spinner_after
           (events_of_requests ydl (List.length (calls st))
              (map (mode_opts m out ff) (firstn n (plan_for m))) [url])
           (spinner_running st)) /\
  (finishes_what_it_starts ydl ->
   forall st,
     spinner_running st = false ->
     spinner_running (snd (download_audio ydl url out ff st)) = false /\
     spinner_running (snd (download_video ydl url out ff st)) = false /\
     spinner_running (snd (download_video_protools ydl url out ff st))
     = false).
Proof.
  split; [|split].
  - intros st; apply download_audio_running.
  - intros m st; rewrite download_mode_loop; apply run_running.
  - intros H st Hst; repeat split.
    + rewrite download_audio_running, Hst; apply H.
    + apply (run_idle ydl VideoBest url out ff format_attempts st H Hst).
    + apply (run_idle ydl VideoForEditingSuite url out ff base_formats st H
               Hst).
Qed.

(** C7: start and stop are idempotent.  In every coherent state of the
    spinner: [start_spinner] while running changes nothing; two consecutive
    [start_spinner] calls are one, they leave exactly one renderer thread
    alive, the one in [spinner_thread], and from idle they start exactly
    one thread; [stop_spinner] while idle changes nothing, in particular it
    prints nothing, and two consecutive [stop_spinner] calls are one. *)
Theorem spinner_start_stop_idempotent st :
  coherent st ->
  (spinner_running st = true -> start_spinner st = st) /\
  start_spinner (start_spinner st) = start_spinner st /\
  (exists t, spinner_thread (start_spinner (start_spinner st)) = Some t /\
             alive (start_spinner (start_spinner st)) = [t]) /\
  (spinner_running st = false ->
     spawned (start_spinner (start_spinner st)) = S (spawned st)) /\
  (spinner_running st = false -> stop_spinner st = st) /\
  stop_spinner (stop_spinner st) = stop_spinner st.
Proof.
  intros Hc; repeat split.
  - intros H; unfold start_spinner; rewrite H; reflexivity.
  - unfold start_spinner at 1; rewrite running_start_spinner; reflexivity.
  - unfold start_spinner at 1 3; rewrite running_start_spinner.
    apply coherent_start_spinner in Hc; unfold coherent in Hc.
    rewrite running_start_spinner in Hc; exact Hc.
  - intros H; unfold start_spinner at 1; rewrite running_start_spinner.
    unfold start_spinner; rewrite H; reflexivity.
  - intros H; unfold stop_spinner; rewrite H; reflexivity.
  - unfold stop_spinner at 1; rewrite running_stop_spinner; reflexivity.
Qed.

(** C8, as the code has it: a progress event never starts the spinner.
    [print_progress], whatever the status of the event ("downloading",
    "finished" or any other), only prints: it leaves the flag, the thread
    and the renderer threads as they are.  [post_hook_spinner] does
    nothing at all for a status other than "started" and "finished".  With
    the hooks the download functions register, the only event that takes
    the spinner from idle to running, or starts a thread, is a
    postprocessor "started" event, and what such an event does is
    [start_spinner]. *)
Theorem progress_leaves_spinner_alone :
  (forall d st,
     spinner_running (print_progress d st) = spinner_running st /\
     spinner_thread (print_progress d st) = spinner_thread st /\
     alive (print_progress d st) = alive st /\
     spawned (print_progress d st) = spawned st) /\
  (forall d st,
     (status d =? "started") = false ->
     (status d =? "finished") = false ->
     post_hook_spinner d st = st) /\
  (forall opts st ev,
     standard_hooks opts ->
     spinner_running st = false ->
     spinner_running (deliver opts st ev) = true ->
     exists d, ev = PostprocessorProgress d /\ status d = "started") /\
  (forall opts st ev,
     standard_hooks opts ->
     spawned (deliver opts st ev) <> spawned st ->
     exists d, ev = PostprocessorProgress d /\ status d = "started") /\
  (forall opts st d,
     standard_hooks opts ->
     status d = "started" ->
     deliver opts st (PostprocessorProgress d) = start_spinner st).
Proof.
  assert (Hpp : forall d st,
     spinner_running (print_progress d st) = spinner_running st /\
     spinner_thread (print_progress d st) = spinner_thread st /\
     alive (print_progress d st) = alive st /\
     spawned (print_progress d st) = spawned st).
  { intros d st; unfold print_progress.
    destruct (status d =? "downloading"); [repeat split|].
    destruct (status d =? "finished"); repeat split. }
  split; [exact Hpp|split; [|split; [|split]]].
  - intros d st Hs Hf; unfold post_hook_spinner; rewrite Hs, Hf; reflexivity.
  - intros opts st ev Hstd Hidle Hrun.
    rewrite (running_deliver opts st ev Hstd), Hidle in Hrun.
    destruct ev as [d|d]; cbn [spinner_after] in Hrun; [discriminate|].
    exists d; split; [reflexivity|].
    destruct (status d =? "started") eqn:Hs;
      [apply String.eqb_eq, Hs|].
    destruct (status d =? "finished"); discriminate.
  - intros opts st ev [Hp Hh] Hsp.
    destruct ev as [d|d]; cbn [deliver] in Hsp.
    + exfalso; apply Hsp; rewrite Hp; cbn [call_hooks fold_left call_hook].
      apply Hpp.
    + exists d; split; [reflexivity|].
      rewrite Hh in Hsp; cbn [call_hooks fold_left call_hook] in Hsp.
      unfold post_hook_spinner in Hsp.
      destruct (status d =? "started") eqn:Hs;
        [apply String.eqb_eq, Hs|].
      exfalso; apply Hsp.
      destruct (status d =? "finished"); [|reflexivity].
      unfold stop_spinner; destruct (spinner_running st); [|reflexivity].
      cbn; destruct (spinner_thread st); reflexivity.
  - intros opts st d [_ Hh] Hd; cbn [deliver].
    rewrite Hh; cbn [call_hooks fold_left call_hook].
    unfold post_hook_spinner; rewrite Hd; reflexivity.
Qed.

(** C9: [stop_spinner] called while the spinner runs clears the flag, joins
    the renderer thread and prints the line with the mark "✔ FESHOW!!!".
    Nothing about the enclosing download enters: the "finished" hook is
    [stop_spinner] applied to the state, and the state after a request is
    the same whether the request returns or raises. *)
Theorem stop_prints_success_mark st :
  spinner_running st = true ->
  spinner_running (stop_spinner st) = false /\
  (forall t, spinner_thread st = Some t -> ~ In t (alive (stop_spinner st))) /\
  stdout (stop_spinner st) = (stdout st ++ [line FESHOW])%list /\
  is_substring "✔ FESHOW!!!" FESHOW = true /\
  (forall d, status d = "finished" -> post_hook_spinner d st = stop_spinner st) /\
  (forall evs r1 r2 opts urls s,
     snd (YoutubeDL_download (fun _ _ _ => {| events := evs; result := r1 |})
            opts urls s)
     = snd (YoutubeDL_download (fun _ _ _ => {| events := evs; result := r2 |})
              opts urls s)).
Proof.
  intros H; split; [apply running_stop_spinner|].
  split; [|split; [|split; [|split]]].
  - intros t Ht; unfold stop_spinner; rewrite H; simpl; rewrite Ht; simpl.
    apply remove_In.
  - unfold stop_spinner; rewrite H; simpl.
    destruct (spinner_thread st); reflexivity.
  - vm_compute; reflexivity.
  - intros d Hd; unfold post_hook_spinner; rewrite Hd; reflexivity.
  - reflexivity.
Qed.

(** C10: the download functions are total with respect to the errors of
    the service.  When every exception the service raises is an
    [Exception], [download_audio], [download_video] and
    [download_video_protools] return normally, and every exception raised
    during a request they made is reported: its text is in a line they
    printed (the audio error line; for the video modes the failure line of
    the attempt or the error line). *)
Theorem downloads_catch_every_Exception ydl url out ff st :
  raises_only_Exception ydl ->
  (fst (download_audio ydl url out ff st) = None /\
   forall e,
     result (ydl (List.length (calls st)) (audio_opts out ff) [url]) = Raised e ->
     In (line (NL ++ "❌ Erro durante o download de áudio: " ++ exc_str e))
        (emitted st (snd (download_audio ydl url out ff st)))) /\
  fst (download_video ydl url out ff st) = None /\
  fst (download_video_protools ydl url out ff st) = None /\
  (forall m i fmt e,
     nth_error (plan_for m) i = Some fmt ->
     List.length (calls st) + i
     < List.length (calls (snd (download_mode ydl m url out ff st))) ->
     result (ydl (List.length (calls st) + i) (mode_opts m out ff fmt) [url])
     = Raised e ->
     In (line (failed_line m fmt e))
        (emitted st (snd (download_mode ydl m url out ff st))) \/
     In (line (error_line e))
        (emitted st (snd (download_mode ydl m url out ff st)))).
Proof.
  intros H; split; [|split; [|split]].
  - pose proof (download_audio_cases ydl url out ff st) as Hc; cbv zeta in Hc.
    destruct (result _) as [|e0] eqn:Hr.
    + rewrite Hc; split; [reflexivity|discriminate].
    + rewrite (H _ _ _ _ Hr) in Hc; rewrite Hc; split; [reflexivity|].
      intros e He; injection He as <-; cbn [snd].
      eapply emitted_between; [|apply extends_refl].
      eapply extends_trans; [apply extends_print|apply request_extends].
  - apply (run_returns ydl VideoBest url out ff format_attempts st H).
  - apply (run_returns ydl VideoForEditingSuite url out ff base_formats st H).
  - intros m i fmt e Hn Hreq Hans.
    rewrite download_mode_loop in *.
    apply (run_reports ydl m url out ff (plan_for m) st i fmt e); trivial.
    eapply H; exact Hans.
Qed.

(** ** The claims at concrete inputs *)

(** C1 at a service that finishes what it starts: the first format is
    unavailable, the second downloads and postprocesses. *)
Lemma spinner_idle_when_service_finishes_witness :
  finishes_what_it_starts ydl_second_succeeds /\
  spinner_running initial_state = false /\
  spinner_running
    (snd (download_video_protools ydl_second_succeeds example_url example_out
            example_ff initial_state)) = false.
Proof.
  assert (H : finishes_what_it_starts ydl_second_succeeds).
  { intros n o u; destruct n; reflexivity. }
  split; [exact H|split; [reflexivity|]].
  apply (proj2 (proj2 (spinner_idle_when_service_finishes ydl_second_succeeds
                         example_url example_out example_ff))
           H initial_state eq_refl).
Defined.

(** C1 fails as stated: postprocessing starts, ffmpeg fails, and
    [download_audio] returns with the spinner still running and its
    renderer thread alive. *)
Lemma spinner_left_running_after_failed_postprocessing :
  fst (download_audio ydl_postprocessing_fails example_url example_out
         example_ff initial_state) = None /\
  spinner_running
    (snd (download_audio ydl_postprocessing_fails example_url example_out
            example_ff initial_state)) = true /\
  alive
    (snd (download_audio ydl_postprocessing_fails example_url example_out
            example_ff initial_state)) = [0].
Proof. vm_compute; repeat split. Qed.

(** C2 at a [DownloadError] caused by the network: the loop goes on. *)
Lemma classification_by_exception_class_witness :
  result (ydl_network_down 0
            (mode_opts VideoBest example_out example_ff fmt_video_second)
            [example_url]) = Raised exn_network_down /\
  is_Exception exn_network_down = true /\
  download_loop ydl_network_down VideoBest
    [fmt_video_second; "bestvideo+bestaudio/best"]
    example_url example_out example_ff initial_state
  = download_loop ydl_network_down VideoBest ["bestvideo+bestaudio/best"]
      example_url example_out example_ff
      (print (failed_line VideoBest fmt_video_second exn_network_down)
         (snd (attempt ydl_network_down VideoBest fmt_video_second example_url
                 example_out example_ff initial_state))).
Proof.
  split; [reflexivity|split; [reflexivity|]].
  apply (classification_by_exception_class ydl_network_down VideoBest
           example_url example_out example_ff fmt_video_second
           ["bestvideo+bestaudio/best"] initial_state exn_network_down
           eq_refl eq_refl).
  reflexivity.
Defined.

(** C2 fails as stated: with the network down the error of every attempt
    is one the specification calls unrecoverable, and [download_video]
    still requests all three formats. *)
Lemma network_error_is_retried :
  (forall n o u, result (ydl_network_down n o u) = Raised exn_network_down) /\
  spec_classification exn_network_down
  = UnrecoverableFailure "ERROR: Unable to download webpage" /\
  fst (download_video ydl_network_down example_url example_out example_ff
         initial_state) = None /\
  map format
    (calls (snd (download_video ydl_network_down example_url example_out
                   example_ff initial_state)))
  = format_attempts.
Proof. repeat split. Qed.

(** C3 in the scenario of the specification: Pro Tools mode, the first
    format is unavailable, the second succeeds, the third is never
    requested. *)
Lemma negotiation_short_circuits_witness :
  nth_error base_formats 1 = Some fmt_protools_second /\
  List.length (calls initial_state) + 1
  < List.length
      (calls (snd (download_loop ydl_second_succeeds VideoForEditingSuite
                     base_formats example_url example_out example_ff
                     initial_state))) /\
  result (ydl_second_succeeds (List.length (calls initial_state) + 1)
            (mode_opts VideoForEditingSuite example_out example_ff
               fmt_protools_second)
            [example_url]) = Returned /\
  calls (snd (download_loop ydl_second_succeeds VideoForEditingSuite
                base_formats example_url example_out example_ff
                initial_state))
  = (calls initial_state
     ++ map (mode_opts VideoForEditingSuite example_out example_ff)
            (firstn 2 base_formats))%list.
Proof.
  assert (H1 : nth_error base_formats 1 = Some fmt_protools_second)
    by reflexivity.
  assert (H2 : List.length (calls initial_state) + 1
               < List.length
                   (calls (snd (download_loop ydl_second_succeeds
                                  VideoForEditingSuite base_formats
                                  example_url example_out example_ff
                                  initial_state)))) by (vm_compute; lia).
  split; [exact H1|split; [exact H2|split; [reflexivity|]]].
  apply (negotiation_short_circuits ydl_second_succeeds
           VideoForEditingSuite example_url example_out example_ff
           base_formats initial_state 1 fmt_protools_second H1 H2 eq_refl).
Defined.

(** C4 in the same scenario. *)
Lemma negotiation_continues_past_failures_witness :
  nth_error base_formats 1 = Some fmt_protools_second /\
  recoverable_before ydl_second_succeeds VideoForEditingSuite example_url
    example_out example_ff initial_state base_formats 1 /\
  result (ydl_second_succeeds (List.length (calls initial_state) + 1)
            (mode_opts VideoForEditingSuite example_out example_ff
               fmt_protools_second)
            [example_url]) = Returned /\
  fst (download_loop ydl_second_succeeds VideoForEditingSuite base_formats
         example_url example_out example_ff initial_state) = None.
Proof.
  assert (H1 : nth_error base_formats 1 = Some fmt_protools_second)
    by reflexivity.
  assert (H2 : recoverable_before ydl_second_succeeds VideoForEditingSuite
                 example_url example_out example_ff initial_state
                 base_formats 1).
  { intros i fmt_i Hi Hn; destruct i; [|lia].
    eexists; split; reflexivity. }
  split; [exact H1|split; [exact H2|split; [reflexivity|]]].
  apply (negotiation_continues_past_failures ydl_second_succeeds
           VideoForEditingSuite example_url example_out example_ff
           base_formats initial_state 1 fmt_protools_second H1 H2 eq_refl).
Defined.

(** C5 at a failure of ffmpeg in the first attempt, which aborts, and at
    a [DownloadError] in the first attempt, after which the second format
    is requested. *)
Lemma negotiation_aborts_on_unrecoverable_witness :
  (nth_error format_attempts 0 = Some fmt_video_first /\
   List.length (calls initial_state) + 0
   < List.length
       (calls (snd (download_loop ydl_postprocessing_fails VideoBest
                      format_attempts example_url example_out example_ff
                      initial_state))) /\
   result (ydl_postprocessing_fails (List.length (calls initial_state) + 0)
             (mode_opts VideoBest example_out example_ff fmt_video_first)
             [example_url])
   = Raised exn_ffmpeg_failed /\
   is_Exception exn_ffmpeg_failed = true /\
   is_DownloadError exn_ffmpeg_failed = false /\
   fst (download_loop ydl_postprocessing_fails VideoBest format_attempts
          example_url example_out example_ff initial_state) = None) /\
  (result (ydl_network_down (List.length (calls initial_state) + 0)
             (mode_opts VideoBest example_out example_ff fmt_video_first)
             [example_url])
   = Raised exn_network_down /\
   is_Exception exn_network_down = true /\
   is_DownloadError exn_network_down = true /\
   nth_error format_attempts 1 = Some fmt_video_second /\
   List.length (calls initial_state) + 1
   < List.length
       (calls (snd (download_loop ydl_network_down VideoBest format_attempts
                      example_url example_out example_ff initial_state)))).
Proof.
  assert (H1 : nth_error format_attempts 0 = Some fmt_video_first)
    by reflexivity.
  assert (H2 : List.length (calls initial_state) + 0
               < List.length
                   (calls (snd (download_loop ydl_postprocessing_fails
                                  VideoBest format_attempts example_url
                                  example_out example_ff initial_state))))
    by (vm_compute; lia).
  assert (H3 : List.length (calls initial_state) + 0
               < List.length
                   (calls (snd (download_loop ydl_network_down
                                  VideoBest format_attempts example_url
                                  example_out example_ff initial_state))))
    by (vm_compute; lia).
  split.
  - repeat (split; [first [exact H1|exact H2|reflexivity]|]).
    apply (proj1 (negotiation_aborts_on_unrecoverable ydl_postprocessing_fails
                    VideoBest example_url example_out example_ff
                    format_attempts initial_state 0 fmt_video_first
                    exn_ffmpeg_failed H1 H2 eq_refl eq_refl) eq_refl).
  - repeat (split; [reflexivity|]).
    apply (proj1 (proj2 (negotiation_aborts_on_unrecoverable ydl_network_down
                           VideoBest example_url example_out example_ff
                           format_attempts initial_state 0 fmt_video_first
                           exn_network_down H1 H3 eq_refl eq_refl) eq_refl)
             fmt_video_second eq_refl).
Defined.

(** C5 fails as stated: the first attempt of [download_video] fails
    because the network is down, a failure the specification calls
    unrecoverable; the second and third formats are requested all the
    same, and the last line printed is the fixed closing line, which does
    not carry the reason. *)
Lemma network_failure_does_not_abort :
  result (ydl_network_down 0
            (mode_opts VideoBest example_out example_ff fmt_video_first)
            [example_url]) = Raised exn_network_down /\
  spec_classification exn_network_down
  = UnrecoverableFailure "ERROR: Unable to download webpage" /\
  map format
    (calls (snd (download_video ydl_network_down example_url example_out
                   example_ff initial_state)))
  = [ fmt_video_first; fmt_video_second; "bestvideo+bestaudio/best" ] /\
  last (stdout (snd (download_video ydl_network_down example_url example_out
                       example_ff initial_state))) ""
  = line "❌ Não foi possível baixar o vídeo em nenhum formato suportado." /\
  is_substring "Unable to download webpage"
    (last (stdout (snd (download_video ydl_network_down example_url
                          example_out example_ff initial_state))) "")
  = false.
Proof. vm_compute; repeat split. Qed.

(** C6 when no format is available. *)
Lemma exhaustion_prints_fixed_line_witness :
  recoverable_before ydl_format_unavailable VideoBest example_url example_out
    example_ff initial_state format_attempts (List.length format_attempts) /\
  last (stdout (snd (download_loop ydl_format_unavailable VideoBest
                       format_attempts example_url example_out example_ff
                       initial_state))) ""
  = line (exhausted_line VideoBest).
Proof.
  assert (H : recoverable_before ydl_format_unavailable VideoBest example_url
                example_out example_ff initial_state format_attempts
                (List.length format_attempts)).
  { intros i fmt_i Hi Hn; eexists; split; reflexivity. }
  split; [exact H|].
  apply (exhaustion_prints_fixed_line ydl_format_unavailable VideoBest
           example_url example_out example_ff format_attempts initial_state H).
Defined.

(** C6 fails as stated: when all three formats of [download_video] are
    unavailable, the closing line is the fixed sentence; it contains none
    of the three selectors and not the reason the service gave. *)
Lemma exhaustion_line_names_nothing :
  map format
    (calls (snd (download_video ydl_format_unavailable example_url
                   example_out example_ff initial_state)))
  = format_attempts /\
  last (stdout (snd (download_video ydl_format_unavailable example_url
                       example_out example_ff initial_state))) ""
  = line "❌ Não foi possível baixar o vídeo em nenhum formato suportado." /\
  forallb
    (fun fmt =>
       negb (is_substring fmt
               (last (stdout (snd (download_video ydl_format_unavailable
                                     example_url example_out example_ff
                                     initial_state))) "")))
    format_attempts = true /\
  is_substring "Requested format is not available"
    (last (stdout (snd (download_video ydl_format_unavailable example_url
                          example_out example_ff initial_state))) "")
  = false.
Proof. vm_compute; repeat split. Qed.

(** C7 at the state after one [start_spinner]. *)
Lemma spinner_start_stop_idempotent_witness :
  coherent (start_spinner initial_state) /\
  start_spinner (start_spinner (start_spinner initial_state))
  = start_spinner (start_spinner initial_state).
Proof.
  assert (H : coherent (start_spinner initial_state)).
  { exists 0; split; reflexivity. }
  split; [exact H|].
  apply (spinner_start_stop_idempotent (start_spinner initial_state) H).
Defined.

(** C8 at a download progress event. *)
Lemma progress_leaves_spinner_alone_witness :
  ((status (d_status "downloading") =? "started") = false /\
   (status (d_status "downloading") =? "finished") = false /\
   post_hook_spinner (d_status "downloading") initial_state = initial_state) /\
  (standard_hooks (audio_opts example_out example_ff) /\
   spinner_running initial_state = false /\
   spinner_running
     (deliver (audio_opts example_out example_ff) initial_state
        (PostprocessorProgress (d_status "started"))) = true /\
   exists d,
     PostprocessorProgress (d_status "started") = PostprocessorProgress d /\
     status d = "started").
Proof.
  split.
  - split; [reflexivity|split; [reflexivity|]].
    apply (proj1 (proj2 progress_leaves_spinner_alone)
             (d_status "downloading") initial_state eq_refl eq_refl).
  - assert (H : standard_hooks (audio_opts example_out example_ff))
      by (split; reflexivity).
    split; [exact H|split; [reflexivity|split; [reflexivity|]]].
    apply (proj1 (proj2 (proj2 progress_leaves_spinner_alone))
             (audio_opts example_out example_ff) initial_state
             (PostprocessorProgress (d_status "started")) H eq_refl eq_refl).
Defined.

(** C8 fails as stated: a progress event arriving while the spinner is
    idle, with no "started" before it, leaves it idle with no renderer
    thread, where [start_spinner] would have it running. *)
Lemma progress_event_does_not_start_spinner :
  spinner_running
    (deliver (audio_opts example_out example_ff) initial_state
       (DownloadProgress d_downloading)) = false /\
  alive
    (deliver (audio_opts example_out example_ff) initial_state
       (DownloadProgress d_downloading)) = [] /\
  spinner_running
    (deliver (audio_opts example_out example_ff) initial_state
       (PostprocessorProgress (d_status "processing"))) = false /\
  spinner_running (start_spinner initial_state) = true.
Proof. vm_compute; repeat split. Qed.

(** C9 at the state after one [start_spinner]. *)
Lemma stop_prints_success_mark_witness :
  spinner_running (start_spinner initial_state) = true /\
  stdout (stop_spinner (start_spinner initial_state)) = [line FESHOW].
Proof.
  split; [reflexivity|].
  apply (stop_prints_success_mark (start_spinner initial_state) eq_refl).
Defined.

(** C10 at a service whose only exception is a [DownloadError]. *)
Lemma downloads_catch_every_Exception_witness :
  raises_only_Exception ydl_second_succeeds /\
  fst (download_audio ydl_second_succeeds example_url example_out example_ff
         initial_state) = None.
Proof.
  assert (H : raises_only_Exception ydl_second_succeeds).
  { intros n o u e; destruct n; simpl; intros He;
      [injection He as <-; reflexivity|discriminate]. }
  split; [exact H|].
  apply (downloads_catch_every_Exception ydl_second_succeeds example_url
           example_out example_ff initial_state H).
Defined.

(** * Further properties of the download functions and the spinner *)

Lemma audio_requests_once ydl url out ff st :
  calls (snd (download_audio ydl url out ff st))
  = (calls st ++ [audio_opts out ff])%list.
Proof.
  pose proof (download_audio_cases ydl url out ff st) as H; cbv zeta in H.
  pose proof (request_calls ydl (audio_opts out ff) [url]
                (print (NL ++ "⏳ Baixando áudio...") st)) as Hr.
  destruct (result _) as [|e]; rewrite H.
  - exact Hr.
  - destruct (is_Exception e); exact Hr.
Qed.

(** X1: how many requests a download makes.  [download_audio] makes
    exactly one, whatever the service answers.  [download_video] and
    [download_video_protools] make at least one and at most three, and the
    formats requested are the first ones of the list of the mode, in its
    order, each once, all with the output folder and the ffmpeg path they
    were given. *)
Theorem requests_follow_the_plan ydl url out ff st :
  calls (snd (download_audio ydl url out ff st))
  = (calls st ++ [audio_opts out ff])%list /\
  forall m,
  exists n, 1 <= n <= 3 /\
    calls (snd (download_mode ydl m url out ff st))
    = (calls st ++ map (mode_opts m out ff) (firstn n (plan_for m)))%list.
Proof.
  split; [apply audio_requests_once|intros m].
  rewrite download_mode_loop.
  assert (Hp : exists fmt rest, plan_for m = fmt :: rest /\ List.length rest = 2)
    by (destruct m; do 2 eexists; split; reflexivity).
  destruct Hp as [fmt [rest [-> Hl]]].
  destruct (run_calls_nonempty ydl m url out ff fmt rest st) as [n [Hn Hc]].
  exists (S n); split; [lia|exact Hc].
Qed.

(** X2: an exception that is not an [Exception] (Ctrl-C, [SystemExit]) is
    not swallowed by the video loops.  If attempt [k] is requested and the
    service raises such an exception, the function lets it out at once:
    nothing is printed after the attempt and no further format is
    requested. *)
Theorem interrupt_gets_out ydl m url out ff plan st k fmt e :
  nth_error plan k = Some fmt ->
  List.length (calls st) + k
  < List.length (calls (snd (download_loop ydl m plan url out ff st))) ->
  result (ydl (List.length (calls st) + k) (mode_opts m out ff fmt) [url])
  = Raised e ->
  is_Exception e = false ->
  fst (download_loop ydl m plan url out ff st) = Some e /\
  calls (snd (download_loop ydl m plan url out ff st))
  = (calls st ++ map (mode_opts m out ff) (firstn (S k) plan))%list /\
  exists st_k,
    calls st_k = (calls st ++ map (mode_opts m out ff) (firstn k plan))%list /\
    snd (download_loop ydl m plan url out ff st)
    = snd (attempt ydl m fmt url out ff st_k).
Proof.
  intros Hn Hreq Hans Hx.
  pose proof (requested_after_failures ydl m url out ff plan st k Hreq) as Hrec.
  destruct (run_at_attempt ydl m url out ff plan st k fmt Hn Hrec)
    as [st_k [Hc [Hlen [_ [Hr _]]]]].
  rewrite <- Hlen in Hans.
  rewrite Hr, (run_first_escapes ydl m url out ff fmt _ st_k e Hans Hx).
  cbn [fst snd]; split; [reflexivity|split].
  - rewrite attempt_calls, Hc, (firstn_S_nth plan k fmt Hn).
    rewrite map_app, <- app_assoc; reflexivity.
  - exists st_k; split; trivial.
Qed.

(** X3: at most one renderer thread is ever alive.  From a coherent state
    each of the three download functions ends in a coherent state: one
    thread alive, the one in [spinner_thread], when the flag is up, and
    none when it is down. *)
Theorem at_most_one_renderer ydl url out ff st :
  coherent st ->
  (coherent (snd (download_audio ydl url out ff st)) /\
   List.length (alive (snd (download_audio ydl url out ff st))) <= 1) /\
  (coherent (snd (download_video ydl url out ff st)) /\
   List.length (alive (snd (download_video ydl url out ff st))) <= 1) /\
  (coherent (snd (download_video_protools ydl url out ff st)) /\
   List.length (alive (snd (download_video_protools ydl url out ff st))) <= 1).
Proof.
  intros H.
  assert (Hle : forall s, coherent s -> List.length (alive s) <= 1).
  { intros s Hs; unfold coherent in Hs.
    destruct (spinner_running s); [destruct Hs as [t [_ ->]]|rewrite Hs];
      simpl; lia. }
  pose proof (coherent_download_audio ydl url out ff st H) as Ha.
  pose proof (coherent_run ydl VideoBest format_attempts url out ff st H) as Hv.
  pose proof (coherent_run ydl VideoForEditingSuite base_formats url out ff st H)
    as Hp.
  repeat split; auto.
Qed.

(** ** Counting what the spinner does *)

Lemma progress_line_is_not_the_mark d st :
  exists out,
    stdout (print_progress d st) = (stdout st ++ out)%list /\
    count_occ string_dec out (line FESHOW) = 0.
Proof.
  unfold print_progress.
  destruct (status d =? "downloading").
  - eexists; split; [reflexivity|].
    apply count_occ_not_In; intros [H|[]]; discriminate H.
  - destruct (status d =? "finished").
    + eexists; split; [reflexivity|].
      apply count_occ_not_In; intros [H|[]]; discriminate H.
    + exists []; split; [symmetry; apply app_nil_r|reflexivity].
Qed.

Lemma deliver_accounting opts st ev :
  standard_hooks opts ->
  spawned (deliver opts st ev)
  = spawned st
    + (if negb (spinner_running st) && spinner_after (spinner_running st) ev
       then 1 else 0) /\
  exists out,
    stdout (deliver opts st ev) = (stdout st ++ out)%list /\
    count_occ string_dec out (line FESHOW)
    = if spinner_running st && negb (spinner_after (spinner_running st) ev)
      then 1 else 0.
Proof.
  intros [Hp Hpp]; destruct ev as [d|d]; simpl.
  - rewrite Hp; simpl.
    rewrite andb_negb_l, andb_negb_r.
    split.
    + unfold print_progress.
      destruct (status d =? "downloading"); [simpl; lia|].
      destruct (status d =? "finished"); simpl; lia.
    + apply progress_line_is_not_the_mark.
  - rewrite Hpp; simpl; unfold post_hook_spinner.
    destruct (status d =? "started").
    + unfold start_spinner; destruct (spinner_running st); simpl.
      * split; [lia|]. exists []; split; [symmetry; apply app_nil_r|reflexivity].
      * split; [lia|]. exists []; split; [symmetry; apply app_nil_r|reflexivity].
    + destruct (status d =? "finished").
      * unfold stop_spinner; destruct (spinner_running st) eqn:E; simpl.
        -- split; [destruct (spinner_thread st); simpl; lia|].
           exists [line FESHOW]; split;
             [destruct (spinner_thread st); reflexivity|].
           simpl; destruct (string_dec (line FESHOW) (line FESHOW));
             [reflexivity|contradiction].
        -- split; [lia|].
           exists []; split; [symmetry; apply app_nil_r|reflexivity].
      * rewrite andb_negb_l, andb_negb_r.
        split; [lia|].
        exists []; split; [symmetry; apply app_nil_r|reflexivity].
Qed.

Lemma deliver_all_accounting opts evs : forall st,
  standard_hooks opts ->
  spawned (fold_left (deliver opts) evs st)
  = spawned st + spinner_starts (spinner_running st) evs /\
  exists out,
    stdout (fold_left (deliver opts) evs st) = (stdout st ++ out)%list /\
    count_occ string_dec out (line FESHOW)
    = spinner_stops (spinner_running st) evs.
Proof.
  induction evs as [|ev evs IH]; intros st H; simpl.
  - split; [lia|].
    exists []; split; [symmetry; apply app_nil_r|reflexivity].
  - destruct (deliver_accounting opts st ev H) as [Hs [o1 [Ho1 Hc1]]].
    destruct (IH (deliver opts st ev) H) as [Hs' [o2 [Ho2 Hc2]]].
    rewrite (running_deliver opts st ev H) in Hs', Hc2.
    split; [rewrite Hs', Hs; lia|].
    exists (o1 ++ o2)%list; split.
    + rewrite Ho2, Ho1, app_assoc; reflexivity.
    + rewrite count_occ_app, Hc1, Hc2; reflexivity.
Qed.

(** X4: the spinner's bookkeeping along one download.  For options with
    the hooks of the download functions, the number of renderer threads
    started during the request is the number of times the events raise the
    flag (a "started" while idle), and the number of "✔ FESHOW!!!" lines
    printed is the number of times they lower it (a "finished" while
    running): repeated "started" or "finished" events add nothing. *)
Theorem spinner_accounting ydl opts urls st :
  standard_hooks opts ->
  spawned (snd (YoutubeDL_download ydl opts urls st))
  = spawned st
    + spinner_starts (spinner_running st)
        (events (ydl (List.length (calls st)) opts urls)) /\
  count_occ string_dec
    (emitted st (snd (YoutubeDL_download ydl opts urls st))) (line FESHOW)
  = spinner_stops (spinner_running st)
      (events (ydl (List.length (calls st)) opts urls)).
Proof.
  intros H; unfold YoutubeDL_download; cbn [snd].
  destruct (deliver_all_accounting opts
              (events (ydl (List.length (calls st)) opts urls))
              (log_call opts st) H) as [Hs [out [Ho Hc]]].
  split; [exact Hs|].
  rewrite (emitted_extends st _ out Ho); exact Hc.
Qed.

(** X5: a start followed by a stop is a round trip of the spinner.  From a
    coherent idle state, [stop_spinner (start_spinner st)] is idle again
    with no renderer thread left, exactly one thread was started, exactly
    one line, the mark, was printed, and nothing was requested. *)
Theorem start_then_stop_round_trip st :
  coherent st ->
  spinner_running st = false ->
  spinner_running (stop_spinner (start_spinner st)) = false /\
  alive (stop_spinner (start_spinner st)) = [] /\
  spawned (stop_spinner (start_spinner st)) = S (spawned st) /\
  stdout (stop_spinner (start_spinner st)) = (stdout st ++ [line FESHOW])%list /\
  calls (stop_spinner (start_spinner st)) = calls st.
Proof.
  intros Hc Hr; unfold coherent in Hc; rewrite Hr in Hc.
  unfold start_spinner; rewrite Hr.
  unfold stop_spinner; simpl; rewrite Hc; simpl.
  destruct (Nat.eq_dec (spawned st) (spawned st)); [|contradiction].
  repeat split.
Qed.

Lemma turn_in_range idx :
  _spinner_loop_turn true idx
  = Some (CR ++ (C_CYAN ++ "Segura a onda que vai rolar")
             ++ nth idx frames "" ++ "   " ++ C_RESET,
          (idx + 1) mod 4).
Proof. reflexivity. Qed.

(** X6: the renderer cycles through its four frames and never reads past
    them.  After [n] turns from index 0 the index is [n mod 4], [n] frames
    were written, and the [i]-th is the message followed by
    [frames[i mod 4]]. *)
Theorem renderer_cycles_through_frames n :
  snd (_spinner_loop_turns n 0) = n mod 4 /\
  List.length (fst (_spinner_loop_turns n 0)) = n /\
  forall i, i < n ->
    i mod 4 < List.length frames /\
    nth i (fst (_spinner_loop_turns n 0)) ""
    = CR ++ (C_CYAN ++ "Segura a onda que vai rolar")
         ++ nth (i mod 4) frames "" ++ "   " ++ C_RESET.
Proof.
  assert (G : forall n k,
    snd (_spinner_loop_turns n (k mod 4)) = (k + n) mod 4 /\
    List.length (fst (_spinner_loop_turns n (k mod 4))) = n /\
    forall i, i < n ->
      nth i (fst (_spinner_loop_turns n (k mod 4))) ""
      = CR ++ (C_CYAN ++ "Segura a onda que vai rolar")
           ++ nth ((k + i) mod 4) frames "" ++ "   " ++ C_RESET).
  { clear n; induction n as [|n IH]; intros k.
    - simpl; rewrite Nat.add_0_r; repeat split; intros i Hi; lia.
    - cbn [_spinner_loop_turns]; rewrite turn_in_range.
      assert (Hk : (k mod 4 + 1) mod 4 = (S k) mod 4).
      { rewrite Nat.Div0.add_mod_idemp_l; f_equal; lia. }
      rewrite Hk.
      destruct (IH (S k)) as [H1 [H2 H3]].
      destruct (_spinner_loop_turns n (S k mod 4)) as [written last_idx].
      cbn [fst snd] in *; split; [|split].
      + rewrite H1; f_equal; lia.
      + simpl; rewrite H2; reflexivity.
      + intros [|i] Hi.
        * rewrite Nat.add_0_r; reflexivity.
        * cbn [nth]; rewrite H3 by lia.
          replace (S k + i) with (k + S i) by lia; reflexivity. }
  destruct (G n 0) as [H1 [H2 H3]].
  change (0 mod 4) with 0 in *.
  split; [exact H1|split; [exact H2|]].
  intros i Hi; split; [apply Nat.mod_upper_bound; simpl; lia|].
  apply H3; exact Hi.
Qed.

(** * Properties of the interactive part *)

(** ** Cleaning a typed path *)

Lemma lstrip_char_id c s : first_is c s = false -> lstrip_char c s = s.
Proof. destruct s as [|a s]; simpl; [reflexivity|intros ->; reflexivity]. Qed.

Lemma rstrip_char_id c s : last_is c s = false -> rstrip_char c s = s.
Proof.
  induction s as [|a s IH]; [reflexivity|].
  destruct s as [|b s].
  - simpl; intros ->; reflexivity.
  - intros H; change (last_is c (String a (String b s)))
      with (last_is c (String b s)) in H.
    cbn [rstrip_char]; cbn [rstrip_char] in IH; rewrite (IH H); reflexivity.
Qed.

Lemma strip_char_id c s :
  first_is c s = false -> last_is c s = false -> strip_char c s = s.
Proof.
  intros Hf Hl; unfold strip_char.
  rewrite (lstrip_char_id c s Hf); apply rstrip_char_id, Hl.
Qed.

Lemma rstrip_char_snoc c s :
  rstrip_char c (s ++ String c EmptyString) = rstrip_char c s.
Proof.
  induction s as [|a s IH]; simpl.
  - rewrite Ascii.eqb_refl; reflexivity.
  - rewrite IH; reflexivity.
Qed.

Lemma last_is_snoc c q s :
  last_is c (s ++ String q EmptyString) = Ascii.eqb q c.
Proof.
  induction s as [|a s IH]; [reflexivity|].
  simpl; rewrite IH.
  destruct (s ++ String q EmptyString) eqn:E; [|reflexivity].
  destruct s; discriminate E.
Qed.

Lemma strip_char_wrapped q s :
  first_is q s = false -> last_is q s = false ->
  strip_char q (String q (s ++ String q EmptyString)) = s.
Proof.
  intros Hf Hl; unfold strip_char; simpl; rewrite Ascii.eqb_refl.
  destruct s as [|a s].
  - simpl; rewrite Ascii.eqb_refl; reflexivity.
  - rewrite lstrip_char_id by exact Hf.
    rewrite rstrip_char_snoc; apply rstrip_char_id, Hl.
Qed.

Lemma prefix_other_head c old a s :
  Ascii.eqb a c = false -> String.prefix (String c old) (String a s) = false.
Proof.
  intros H; simpl; destruct (ascii_dec c a) as [->|]; [|reflexivity].
  rewrite Ascii.eqb_refl in H; discriminate.
Qed.

Lemma prefix_empty s : String.prefix EmptyString s = true.
Proof. destruct s; reflexivity. Qed.

Lemma replace_go_hit old new c s :
  String.prefix old (String c s) = true ->
  replace_go old new 0 (String c s)
  = new ++ replace_go old new (String.length old - 1) s.
Proof. intros H; cbn [replace_go]; rewrite H; reflexivity. Qed.

Lemma replace_go_miss old new c s :
  String.prefix old (String c s) = false ->
  replace_go old new 0 (String c s) = String c (replace_go old new 0 s).
Proof. intros H; cbn [replace_go]; rewrite H; reflexivity. Qed.

Lemma replace_go_skip old new k c s :
  replace_go old new (S k) (String c s) = replace_go old new k s.
Proof. reflexivity. Qed.

Lemma replace_go_absent c old new s :
  has_char c s = false -> replace_go (String c old) new 0 s = s.
Proof.
  induction s as [|a s IH]; [reflexivity|].
  simpl has_char; intros H; apply orb_false_iff in H; destruct H as [Ha Hs].
  rewrite replace_go_miss by (apply prefix_other_head, Ha).
  rewrite (IH Hs); reflexivity.
Qed.

Lemma replace_absent c old new s :
  has_char c s = false -> replace (String c old) new s = s.
Proof. intros H; unfold replace; simpl; apply replace_go_absent, H. Qed.

Lemma clean_plain_path p : plain_path p = true -> clean_path p = p.
Proof.
  unfold plain_path; intros H.
  repeat (apply andb_true_iff in H; destruct H as [H ?]).
  repeat match goal with
         | Hn : negb _ = true |- _ => apply negb_true_iff in Hn
         end.
  unfold clean_path.
  rewrite (strip_char_id DQUOTE p), (strip_char_id SQUOTE p) by assumption.
  unfold BACKSLASH, chr; cbn [append].
  rewrite (replace_absent _ _ _ p H), (replace_absent _ _ _ p H); reflexivity.
Qed.

Lemma unescape_spaces p :
  has_char (ascii_of_nat 92) p = false ->
  replace_go (BACKSLASH ++ BACKSLASH ++ " ") " " 0 (escape_spaces p)
  = escape_spaces p /\
  replace_go (BACKSLASH ++ " ") " " 0 (escape_spaces p) = p.
Proof.
  unfold BACKSLASH, chr; cbn [append].
  induction p as [|a p IH]; [split; reflexivity|].
  simpl has_char; intros H; apply orb_false_iff in H; destruct H as [Ha Hp].
  destruct (IH Hp) as [IH2 IH1].
  cbn [escape_spaces]; destruct (Ascii.eqb a " ") eqn:Es.
  - apply Ascii.eqb_eq in Es; subst a.
    unfold BACKSLASH, chr; cbn [append].
    split.
    + rewrite replace_go_miss by reflexivity.
      rewrite replace_go_miss by reflexivity.
      rewrite IH2; reflexivity.
    + rewrite replace_go_hit by (simpl; apply prefix_empty).
      cbn [String.length Nat.sub]; rewrite replace_go_skip, IH1; reflexivity.
  - rewrite !replace_go_miss by (apply prefix_other_head, Ha).
    rewrite IH1, IH2; split; reflexivity.
Qed.

Lemma first_is_escape q p :
  Ascii.eqb (ascii_of_nat 92) q = false ->
  Ascii.eqb " " q = false ->
  first_is q (escape_spaces p) = first_is q p.
Proof.
  intros Hq Hs; destruct p as [|a p]; [reflexivity|].
  cbn [escape_spaces]; destruct (Ascii.eqb a " ") eqn:Es; [|reflexivity].
  apply Ascii.eqb_eq in Es; subst a.
  change (Ascii.eqb (ascii_of_nat 92) q = Ascii.eqb " " q).
  rewrite Hq, Hs; reflexivity.
Qed.

Lemma last_is_escape q p :
  Ascii.eqb (ascii_of_nat 92) q = false ->
  last_is q (escape_spaces p) = last_is q p.
Proof.
  intros Hq; induction p as [|a p IH]; [reflexivity|].
  cbn [escape_spaces]; destruct (Ascii.eqb a " ") eqn:Es.
  - apply Ascii.eqb_eq in Es; subst a.
    destruct p as [|b p]; [reflexivity|].
    change (last_is q (String " " (String b p))) with (last_is q (String b p)).
    rewrite <- IH.
    unfold BACKSLASH, chr; cbn [append].
    cbn [last_is].
    destruct (escape_spaces (String b p)) eqn:E; [|reflexivity].
    cbn [escape_spaces] in E; destruct (Ascii.eqb b " "); discriminate E.
  - destruct p as [|b p]; [reflexivity|].
    change (last_is q (String a (String b p))) with (last_is q (String b p)).
    rewrite <- IH.
    cbn [last_is].
    destruct (escape_spaces (String b p)) eqn:E; [|reflexivity].
    cbn [escape_spaces] in E; destruct (Ascii.eqb b " "); discriminate E.
Qed.

Lemma plain_path_parts p :
  plain_path p = true ->
  has_char (ascii_of_nat 92) p = false /\
  first_is DQUOTE p = false /\ last_is DQUOTE p = false /\
  first_is SQUOTE p = false /\ last_is SQUOTE p = false.
Proof.
  unfold plain_path; intros H.
  repeat (apply andb_true_iff in H; destruct H as [H ?]).
  repeat match goal with
         | Hn : negb _ = true |- _ => apply negb_true_iff in Hn
         end.
  repeat split; assumption.
Qed.

Lemma clean_escaped_path p :
  plain_path p = true -> clean_path (escape_spaces p) = p.
Proof.
  intros Hp; destruct (plain_path_parts p Hp) as [Hb [Hd1 [Hd2 [Hs1 Hs2]]]].
  unfold clean_path.
  rewrite (strip_char_id DQUOTE), (strip_char_id SQUOTE);
    rewrite ?first_is_escape, ?last_is_escape by reflexivity; trivial.
  destruct (unescape_spaces p Hb) as [Hu2 Hu1].
  unfold replace.
  change (BACKSLASH ++ BACKSLASH ++ " " =? "") with false.
  change (BACKSLASH ++ " " =? "") with false.
  cbv iota; rewrite Hu2; exact Hu1.
Qed.

Lemma clean_dquoted_path p :
  plain_path p = true ->
  clean_path (String DQUOTE (p ++ String DQUOTE EmptyString)) = p.
Proof.
  intros Hp; pose proof (clean_plain_path p Hp) as Hclean.
  destruct (plain_path_parts p Hp) as [Hb [Hd1 [Hd2 [Hs1 Hs2]]]].
  unfold clean_path; rewrite strip_char_wrapped by assumption.
  unfold clean_path in Hclean.
  rewrite (strip_char_id DQUOTE p) in Hclean by assumption.
  exact Hclean.
Qed.

Lemma clean_squoted_path p :
  plain_path p = true ->
  clean_path (String SQUOTE (p ++ String SQUOTE EmptyString)) = p.
Proof.
  intros Hp; pose proof (clean_plain_path p Hp) as Hclean.
  destruct (plain_path_parts p Hp) as [Hb [Hd1 [Hd2 [Hs1 Hs2]]]].
  unfold clean_path.
  rewrite (strip_char_id DQUOTE);
    [|reflexivity|exact (last_is_snoc DQUOTE SQUOTE (String SQUOTE p))].
  rewrite strip_char_wrapped by assumption.
  unfold clean_path in Hclean.
  rewrite (strip_char_id DQUOTE p), (strip_char_id SQUOTE p) in Hclean
    by assumption.
  exact Hclean.
Qed.

(** X7: cleaning undoes what the shell and the Finder do to a path.  For a
    path with no backslash in it and no quote at either end, [clean_path]
    returns the path itself when it is typed as it is, when its spaces are
    escaped with backslashes (a folder dragged into the terminal), and when
    it is wrapped in double or in single quotes; and cleaning a second
    time changes nothing. *)
Theorem clean_path_round_trips p :
  plain_path p = true ->
  clean_path p = p /\
  clean_path (escape_spaces p) = p /\
  clean_path (String DQUOTE (p ++ String DQUOTE EmptyString)) = p /\
  clean_path (String SQUOTE (p ++ String SQUOTE EmptyString)) = p /\
  clean_path (clean_path (escape_spaces p)) = clean_path (escape_spaces p).
Proof.
  intros Hp.
  pose proof (clean_plain_path p Hp) as H0.
  pose proof (clean_escaped_path p Hp) as H1.
  split; [exact H0|split; [exact H1|split; [|split]]].
  - apply clean_dquoted_path, Hp.
  - apply clean_squoted_path, Hp.
  - rewrite H1; exact H0.
Qed.

(** ** [strip] on text with no whitespace at its ends *)

Lemma find_none_of_existsb {A} (f : A -> bool) l :
  existsb f l = false -> find f l = None.
Proof.
  induction l as [|a l IH]; [reflexivity|].
  simpl; destruct (f a); [discriminate|exact IH].
Qed.

Lemma append_nil_right s : s ++ "" = s.
Proof. induction s as [|c s IH]; [reflexivity|simpl; rewrite IH; reflexivity]. Qed.

Lemma append_assoc_string a b c : (a ++ b) ++ c = a ++ (b ++ c).
Proof. induction a as [|x a IH]; [reflexivity|simpl; rewrite IH; reflexivity]. Qed.

Lemma string_rev_app a b : string_rev (a ++ b) = string_rev b ++ string_rev a.
Proof.
  induction a as [|x a IH]; simpl.
  - symmetry; apply append_nil_right.
  - rewrite IH; apply append_assoc_string.
Qed.

Lemma string_rev_involutive s : string_rev (string_rev s) = s.
Proof.
  induction s as [|c s IH]; [reflexivity|].
  simpl; rewrite string_rev_app, IH; reflexivity.
Qed.

Lemma lstrip_go_id ws s :
  existsb (fun w => String.prefix w s) ws = false -> lstrip_go ws 0 s = s.
Proof.
  intros H; destruct s as [|c s]; [reflexivity|].
  cbn [lstrip_go]; rewrite (find_none_of_existsb _ _ H); reflexivity.
Qed.

Lemma strip_id s :
  starts_with_space s = false -> ends_with_space s = false -> strip s = s.
Proof.
  intros Hs He; unfold strip, lstrip, rstrip.
  rewrite (lstrip_go_id py_whitespace s Hs).
  rewrite (lstrip_go_id _ (string_rev s) He).
  apply string_rev_involutive.
Qed.

(** No whitespace pattern has a backslash in it, from either side. *)
Lemma whitespace_has_no_backslash w :
  In w py_whitespace \/ In w (map string_rev py_whitespace) ->
  has_char (ascii_of_nat 92) w = false.
Proof.
  assert (H : forallb (fun w => negb (has_char (ascii_of_nat 92) w))
                (py_whitespace ++ map string_rev py_whitespace) = true)
    by (vm_compute; reflexivity).
  intros Hin; apply negb_true_iff.
  apply (proj1 (forallb_forall _ _) H), in_or_app, Hin.
Qed.

Lemma prefix_escape_spaces w : forall p,
  has_char (ascii_of_nat 92) w = false ->
  String.prefix w (escape_spaces p) = true -> String.prefix w p = true.
Proof.
  induction w as [|c w IH]; intros p Hw H; [apply prefix_empty|].
  cbn [has_char] in Hw; apply orb_false_iff in Hw; destruct Hw as [Hc Hw].
  destruct p as [|a p]; [exact H|].
  cbn [escape_spaces] in H; destruct (Ascii.eqb a " ") eqn:Ea.
  - unfold BACKSLASH, chr in H; cbn [append String.prefix] in H.
    destruct (ascii_dec c (ascii_of_nat 92)) as [->|]; [|discriminate].
    rewrite Ascii.eqb_refl in Hc; discriminate.
  - cbn [String.prefix] in *.
    destruct (ascii_dec c a); [apply IH; assumption|discriminate].
Qed.

Lemma prefix_escape_spaces_rev w : forall q,
  has_char (ascii_of_nat 92) w = false ->
  String.prefix w (escape_spaces_rev q) = true -> String.prefix w q = true.
Proof.
  induction w as [|c w IH]; intros q Hw H; [apply prefix_empty|].
  cbn [has_char] in Hw; apply orb_false_iff in Hw; destruct Hw as [Hc Hw].
  destruct q as [|a q]; [exact H|].
  cbn [escape_spaces_rev] in H; destruct (Ascii.eqb a " ") eqn:Ea.
  - apply Ascii.eqb_eq in Ea; subst a.
    unfold BACKSLASH, chr in H; cbn [append String.prefix] in H.
    cbn [String.prefix].
    destruct (ascii_dec c " "); [|discriminate].
    destruct w as [|c' w]; [apply prefix_empty|].
    cbn [String.prefix] in H.
    destruct (ascii_dec c' (ascii_of_nat 92)) as [->|]; [|discriminate].
    cbn [has_char] in Hw; rewrite Ascii.eqb_refl in Hw; discriminate.
  - cbn [String.prefix] in *.
    destruct (ascii_dec c a); [apply IH; assumption|discriminate].
Qed.

Lemma escape_spaces_rev_app a b :
  escape_spaces_rev (a ++ b) = escape_spaces_rev a ++ escape_spaces_rev b.
Proof.
  induction a as [|x a IH]; [reflexivity|].
  cbn [append escape_spaces_rev]; destruct (Ascii.eqb x " ");
    unfold BACKSLASH, chr; cbn [append]; rewrite IH; reflexivity.
Qed.

Lemma string_rev_escape_spaces p :
  string_rev (escape_spaces p) = escape_spaces_rev (string_rev p).
Proof.
  induction p as [|a p IH]; [reflexivity|].
  cbn [escape_spaces string_rev]; rewrite escape_spaces_rev_app, <- IH.
  destruct (Ascii.eqb a " ") eqn:Ea.
  - apply Ascii.eqb_eq in Ea; subst a.
    unfold BACKSLASH, chr; cbn [append string_rev escape_spaces_rev].
    rewrite append_assoc_string; reflexivity.
  - cbn [string_rev escape_spaces_rev]; rewrite Ea; reflexivity.
Qed.

Lemma escaped_has_no_space_at_ends p :
  starts_with_space p = false -> ends_with_space p = false ->
  starts_with_space (escape_spaces p) = false /\
  ends_with_space (escape_spaces p) = false.
Proof.
  unfold starts_with_space, ends_with_space; intros Hs He; split.
  - apply not_true_is_false; intros E.
    apply existsb_exists in E; destruct E as [w [Hin Hw]].
    apply prefix_escape_spaces in Hw;
      [|apply whitespace_has_no_backslash; left; exact Hin].
    apply (eq_true_false_abs _ (proj2 (existsb_exists _ _)
                                   (ex_intro _ w (conj Hin Hw))) Hs).
  - rewrite string_rev_escape_spaces.
    apply not_true_is_false; intros E.
    apply existsb_exists in E; destruct E as [w [Hin Hw]].
    apply prefix_escape_spaces_rev in Hw;
      [|apply whitespace_has_no_backslash; right; exact Hin].
    apply (eq_true_false_abs _ (proj2 (existsb_exists _ _)
                                   (ex_intro _ w (conj Hin Hw))) He).
Qed.

Lemma quoted_has_no_space_at_ends q p :
  q = DQUOTE \/ q = SQUOTE ->
  strip (String q (p ++ String q EmptyString))
  = String q (p ++ String q EmptyString).
Proof.
  intros Hq; apply strip_id.
  - destruct Hq as [-> | ->]; reflexivity.
  - unfold ends_with_space.
    change (String q (p ++ String q "")) with (String q p ++ String q "").
    rewrite string_rev_app; cbn [string_rev append].
    destruct Hq as [-> | ->]; reflexivity.
Qed.

(** ** Choosing the output folder *)

Section FolderProperties.

Variable d : string.
Variable mk : Makedirs.

#[local] Abbreviation ask lines fs0 st := (get_output_path_from d mk lines fs0 st).
#[local] Abbreviation turn typed fs0 st := (output_path_turn d mk typed fs0 st).

(** The loop, one turn unfolded. *)
Lemma ask_cons typed rest fs0 st :
  ask (typed :: rest) fs0 st
  = match turn typed fs0 st with
    | inl (o, st', fs') => (o, {| prog := st'; stdin := rest; fs := fs' |})
    | inr (st', fs') => ask rest fs' st'
    end.
Proof.
  cbn [get_output_path_from]; unfold output_path_turn.
  destruct (strip typed =? "0"); [reflexivity|].
  destruct (strip typed =? "").
  - destruct (isdir fs0 _); [reflexivity|].
    destruct (_ && _); [|reflexivity].
    destruct (mk fs0 _) as [[e|] fs1]; [|reflexivity].
    destruct (is_OSError e); reflexivity.
  - destruct (isdir fs0 _); [reflexivity|].
    destruct (_ && _); [|reflexivity].
    destruct (mk fs0 _) as [[e|] fs1]; [|reflexivity].
    destruct (is_OSError e); reflexivity.
Qed.

Lemma ask_nil fs0 st :
  exists st', ask [] fs0 st
              = (Propagated exn_EOFError,
                 {| prog := st'; stdin := []; fs := fs0 |}) /\
              calls st' = calls st.
Proof. eexists; split; reflexivity. Qed.

(** What one turn can do. *)
Lemma turn_facts typed fs0 st :
  match turn typed fs0 st with
  | inl (Value None, st', fs') =>
      strip typed = "0" /\ fs' = fs0 /\ calls st' = calls st
  | inl (Value (Some p), st', fs') =>
      strip typed <> "0" /\ calls st' = calls st /\
      p = clean_path (if strip typed =? "" then d else strip typed) /\
      ((isdir fs0 p = true /\ fs' = fs0) \/
       (p = d /\ path_exists fs0 d = false /\ mk fs0 d = (None, fs')))
  | inl (Propagated e, st', fs') =>
      strip typed <> "0" /\ calls st' = calls st /\
      is_OSError e = false /\ path_exists fs0 d = false /\
      mk fs0 d = (Some e, fs')
  | inr (st', fs') =>
      strip typed <> "0" /\ calls st' = calls st /\
      (fs' = fs0 \/
       (path_exists fs0 d = false /\ exists e, mk fs0 d = (Some e, fs')))
  end.
Proof.
  unfold output_path_turn.
  destruct (strip typed =? "0") eqn:Hz.
  { apply String.eqb_eq in Hz; repeat split; trivial. }
  apply String.eqb_neq in Hz.
  assert (G : forall (path0 : string) (st0 : State),
    calls st0 = calls st ->
    match
      (let path := clean_path path0 in
       if isdir fs0 path then inl (Value (Some path), st0, fs0)
       else if (path =? d) && negb (path_exists fs0 path) then
         match mk fs0 path with
         | (None, fs1) =>
             inl (Value (Some path),
                  print ("INFO: Pasta Downloads padrão criada: " ++ path) st0,
                  fs1)
         | (Some e, fs1) =>
             if is_OSError e then
               inr (print ("❌ ERRO: Não foi possível criar a pasta Downloads padrão: "
                           ++ path ++ NL ++ exc_str e) st0,
                    fs1)
             else inl (Propagated e, st0, fs1)
         end
       else
         inr (print "❌ Caminho de pasta inválido. Tente novamente ou verifique as permissões."
                    st0,
              fs0))
    with
    | inl (Value None, st', fs') =>
        strip typed = "0" /\ fs' = fs0 /\ calls st' = calls st
    | inl (Value (Some p), st', fs') =>
        strip typed <> "0" /\ calls st' = calls st /\
        p = clean_path path0 /\
        ((isdir fs0 p = true /\ fs' = fs0) \/
         (p = d /\ path_exists fs0 d = false /\ mk fs0 d = (None, fs')))
    | inl (Propagated e, st', fs') =>
        strip typed <> "0" /\ calls st' = calls st /\
        is_OSError e = false /\ path_exists fs0 d = false /\
        mk fs0 d = (Some e, fs')
    | inr (st', fs') =>
        strip typed <> "0" /\ calls st' = calls st /\
        (fs' = fs0 \/
         (path_exists fs0 d = false /\ exists e, mk fs0 d = (Some e, fs')))
    end).
  { intros path0 st0 Hc; cbv zeta.
    destruct (isdir fs0 (clean_path path0)) eqn:Hd.
    { repeat split; auto. }
    destruct ((clean_path path0 =? d) && negb (path_exists fs0 (clean_path path0)))
      eqn:Hdef.
    - apply andb_true_iff in Hdef; destruct Hdef as [Heq Hex].
      apply String.eqb_eq in Heq; apply negb_true_iff in Hex.
      rewrite Heq in *.
      destruct (mk fs0 d) as [[e|] fs1] eqn:Hmk.
      + destruct (is_OSError e) eqn:Hos.
        * repeat split; auto. right; split; [exact Hex|exists e; reflexivity].
        * repeat split; auto.
      + repeat split; auto.
    - repeat split; auto. }
  destruct (strip typed =? "").
  - apply G; reflexivity.
  - apply G; reflexivity.
Qed.

(** The lines read are the front of the input, and a line is read unless
    there is none. *)
Lemma ask_consumes lines : forall fs0 st,
  calls (prog (snd (ask lines fs0 st))) = calls st /\
  exists read,
    lines = (read ++ stdin (snd (ask lines fs0 st)))%list /\
    (lines <> [] -> read <> []).
Proof.
  induction lines as [|typed rest IH]; intros fs0 st.
  - split; [reflexivity|]. exists []; split; [reflexivity|congruence].
  - rewrite ask_cons.
    pose proof (turn_facts typed fs0 st) as Hf.
    destruct (turn typed fs0 st) as [[[o st'] fs']|[st' fs']].
    + cbn [snd prog stdin]; split.
      * destruct o as [[p|]|e]; intuition.
      * exists [typed]; split; [reflexivity|discriminate].
    + destruct Hf as [_ [Hc _]].
      destruct (IH fs' st') as [Hc' [read [Hr _]]].
      split; [congruence|].
      exists (typed :: read); split; [simpl; f_equal; exact Hr|discriminate].
Qed.

(** X8: [get_output_path] returns [None] only when the user cancels.  If
    the result is [None], the last line read is "0" (spaces around it
    apart), no line before it was, and the lines after it are left
    unread. *)
Theorem output_path_none_means_cancel lines fs0 st :
  fst (get_output_path_from d mk lines fs0 st) = Value None ->
  exists before typed,
    lines
    = (before
       ++ typed :: stdin (snd (get_output_path_from d mk lines fs0 st)))%list /\
    strip typed = "0" /\
    Forall (fun l => strip l <> "0") before.
Proof.
  revert fs0 st; induction lines as [|typed rest IH]; intros fs0 st.
  - discriminate.
  - rewrite ask_cons.
    pose proof (turn_facts typed fs0 st) as Hf.
    destruct (turn typed fs0 st) as [[[o st'] fs']|[st' fs']].
    + cbn [fst snd stdin]; intros ->.
      exists [], typed; destruct Hf as [Hz _].
      split; [reflexivity|split; [exact Hz|constructor]].
    + intros H; destruct (IH fs' st' H) as [before [t [Hl [Hz Hb]]]].
      exists (typed :: before), t; split; [simpl; f_equal; exact Hl|].
      split; [exact Hz|constructor; [apply Hf|exact Hb]].
Qed.

(** X9: a folder returned by [get_output_path] is a directory.  Provided
    [os.makedirs] leaves a directory behind when it raises nothing, the
    path returned is a directory in the file system the function leaves:
    either [os.path.isdir] said so, or it is the default Downloads folder
    just created. *)
Theorem output_path_is_a_directory lines fs0 st p :
  creates_directories mk ->
  fst (get_output_path_from d mk lines fs0 st) = Value (Some p) ->
  isdir (fs (snd (get_output_path_from d mk lines fs0 st))) p = true.
Proof.
  intros Hmk; revert fs0 st; induction lines as [|typed rest IH]; intros fs0 st.
  - discriminate.
  - rewrite ask_cons.
    pose proof (turn_facts typed fs0 st) as Hf.
    destruct (turn typed fs0 st) as [[[o st'] fs']|[st' fs']].
    + cbn [fst snd fs]; intros ->.
      destruct Hf as [_ [_ [_ [[Hd ->]|[-> [_ Hc]]]]]]; [exact Hd|].
      eapply Hmk, Hc.
    + apply IH.
Qed.

(** X10: [get_output_path] creates nothing but the default Downloads
    folder, and only when it is missing.  The file system it leaves is the
    one it found after some number of [os.makedirs] of the default path;
    if the default path exists at the start, the file system is left as it
    was. *)
Theorem output_path_only_creates_default lines fs0 st :
  (exists n,
     fs (snd (get_output_path_from d mk lines fs0 st))
     = Nat.iter n (fun f => snd (mk f d)) fs0) /\
  (path_exists fs0 d = true ->
   fs (snd (get_output_path_from d mk lines fs0 st)) = fs0).
Proof.
  revert fs0 st; induction lines as [|typed rest IH]; intros fs0 st.
  - split; [exists 0; reflexivity|reflexivity].
  - rewrite ask_cons.
    pose proof (turn_facts typed fs0 st) as Hf.
    destruct (turn typed fs0 st) as [[[o st'] fs']|[st' fs']].
    + cbn [snd fs]; destruct o as [[p|]|e].
      * destruct Hf as [_ [_ [_ [[_ ->]|[_ [Hex Hc]]]]]].
        -- split; [exists 0; reflexivity|reflexivity].
        -- split; [exists 1; simpl; rewrite Hc; reflexivity|congruence].
      * destruct Hf as [_ [-> _]].
        split; [exists 0; reflexivity|reflexivity].
      * destruct Hf as [_ [_ [_ [Hex Hc]]]].
        split; [exists 1; simpl; rewrite Hc; reflexivity|congruence].
    + destruct (IH fs' st') as [[n Hn] Hkeep].
      destruct Hf as [_ [_ [->|[Hex [e Hc]]]]].
      * split; [exists n; exact Hn|exact Hkeep].
      * split; [|congruence].
        exists (S n); rewrite Hn, Nat.iter_succ_r, Hc; reflexivity.
Qed.


Lemma escape_spaces_empty p : escape_spaces p = "" -> p = "".
Proof.
  destruct p as [|a p]; [reflexivity|].
  cbn [escape_spaces]; destruct (Ascii.eqb a " ");
    unfold BACKSLASH, chr; simpl; discriminate.
Qed.

Lemma escape_spaces_zero p : escape_spaces p = "0" -> p = "0".
Proof.
  destruct p as [|a p]; [discriminate|].
  cbn [escape_spaces]; destruct (Ascii.eqb a " ").
  - unfold BACKSLASH, chr; simpl; discriminate.
  - intros H; injection H as -> H'.
    apply escape_spaces_empty in H'; subst; reflexivity.
Qed.

(** X12: an existing folder is accepted as the terminal hands it over.
    Let [p] be a directory that is not empty and not "0", with no
    backslash in it and no quote at either end.  Typed in double or in
    single quotes, [p] is returned by [get_output_path] after that one
    line, with nothing created.  If moreover [p] has no whitespace at
    either end, the same holds when [p] is typed as it is and when it is
    typed with its spaces escaped by backslashes. *)
Theorem existing_folder_is_accepted p typed rest fs0 st :
  plain_path p = true ->
  p <> "" -> p <> "0" ->
  isdir fs0 p = true ->
  In typed [ String DQUOTE (p ++ String DQUOTE EmptyString);
             String SQUOTE (p ++ String SQUOTE EmptyString) ] \/
  (starts_with_space p = false /\ ends_with_space p = false /\
   In typed [ p; escape_spaces p ]) ->
  fst (get_output_path_from d mk (typed :: rest) fs0 st) = Value (Some p) /\
  stdin (snd (get_output_path_from d mk (typed :: rest) fs0 st)) = rest /\
  fs (snd (get_output_path_from d mk (typed :: rest) fs0 st)) = fs0.
Proof.
  intros Hp Hne Hnz Hd Hin.
  assert (Hstrip : strip typed = typed).
  { destruct Hin as [[<-|[<-|[]]]|[Hs [He [<-|[<-|[]]]]]].
    - apply quoted_has_no_space_at_ends; left; reflexivity.
    - apply quoted_has_no_space_at_ends; right; reflexivity.
    - apply strip_id; assumption.
    - apply strip_id; apply escaped_has_no_space_at_ends; assumption. }
  assert (Hclean : clean_path (strip typed) = p).
  { rewrite Hstrip.
    destruct Hin as [[<-|[<-|[]]]|[_ [_ [<-|[<-|[]]]]]].
    - apply clean_dquoted_path, Hp.
    - apply clean_squoted_path, Hp.
    - apply clean_plain_path, Hp.
    - apply clean_escaped_path, Hp. }
  assert (Hz : (strip typed =? "0") = false).
  { rewrite Hstrip; apply String.eqb_neq; intros Hz.
    destruct Hin as [[H|[H|[]]]|[_ [_ [H|[H|[]]]]]]; rewrite Hz in H.
    - unfold DQUOTE in H; simpl in H; discriminate H.
    - unfold SQUOTE in H; simpl in H; discriminate H.
    - congruence.
    - apply escape_spaces_zero in H; congruence. }
  assert (He : (strip typed =? "") = false).
  { rewrite Hstrip; apply String.eqb_neq; intros Hz'.
    destruct Hin as [[H|[H|[]]]|[_ [_ [H|[H|[]]]]]]; rewrite Hz' in H.
    - discriminate H.
    - discriminate H.
    - congruence.
    - apply escape_spaces_empty in H; congruence. }
  rewrite ask_cons; unfold output_path_turn.
  rewrite Hz, He, Hclean, Hd; repeat split.
Qed.

End FolderProperties.

(** ** The menu *)

Lemma input_facts prompt s :
  calls (prog (snd (input prompt s))) = calls (prog s) /\
  fs (snd (input prompt s)) = fs s /\
  match fst (input prompt s) with
  | Value typed => stdin s = typed :: stdin (snd (input prompt s))
  | Propagated e =>
      e = exn_EOFError /\ stdin s = [] /\ stdin (snd (input prompt s)) = []
  end.
Proof.
  unfold input; destruct (stdin s) as [|typed rest] eqn:E;
    cbn [fst snd prog stdin fs with_prog]; rewrite ?E; repeat split.
Qed.

Lemma get_url_facts s :
  calls (prog (snd (get_url s))) = calls (prog s) /\
  fs (snd (get_url s)) = fs s /\
  match fst (get_url s) with
  | Value url =>
      exists typed, stdin s = typed :: stdin (snd (get_url s)) /\
                    url = strip typed
  | Propagated e =>
      e = exn_EOFError /\ stdin s = [] /\ stdin (snd (get_url s)) = []
  end.
Proof.
  unfold get_url.
  pose proof (input_facts (NL ++ "🔗 Digite a URL do YouTube: ") s) as H.
  destruct (input _ s) as [[typed|e] s']; cbn [fst snd] in *.
  - destruct H as [Hc [Hf Hs]]; repeat split; trivial.
    exists typed; split; trivial.
  - exact H.
Qed.

Section MenuProperties.

Variable ydl : Service.
Variable d : string.
Variable mk : Makedirs.

#[local] Abbreviation template := "%(title)s.%(ext)s".

Lemma download_choice_calls choice url out ff st :
  exists new,
    calls (snd (download_choice ydl choice url out ff st))
    = (calls st ++ new)%list /\
    new <> [] /\
    Forall (fun o => ffmpeg_location o = ff /\
                     outtmpl o = os_path_join out template) new.
Proof.
  assert (Hmode : forall m fmts,
    Forall (fun o => ffmpeg_location o = ff /\
                     outtmpl o = os_path_join out template)
           (map (mode_opts m out ff) fmts)).
  { intros m fmts; apply Forall_forall; intros o Ho.
    apply in_map_iff in Ho; destruct Ho as [fmt [<- _]].
    destruct m; split; reflexivity. }
  unfold download_choice.
  destruct (choice =? "1"); [|destruct (choice =? "2")].
  - exists [audio_opts out ff]; split; [apply audio_requests_once|].
    split; [discriminate|]. constructor; [split; reflexivity|constructor].
  - destruct (run_calls_nonempty ydl VideoBest url out ff
                fmt_video_first (tl format_attempts) st) as [n [_ Hc]].
    eexists; split; [exact Hc|]. split; [discriminate|apply Hmode].
  - destruct (run_calls_nonempty ydl VideoForEditingSuite url out ff
                (hd "" base_formats) (tl base_formats) st) as [n [_ Hc]].
    eexists; split; [exact Hc|]. split; [discriminate|apply Hmode].
Qed.

(** What the body of the [try] does to the input, the requests and the
    file system. *)
Lemma menu_try_facts p s :
  exists read new,
    stdin s = (read ++ stdin (snd (menu_try ydl d mk p s)))%list /\
    calls (prog (snd (menu_try ydl d mk p s))) = (calls (prog s) ++ new)%list /\
    Forall (fun o => ffmpeg_location o = p) new /\
    (forall v, fst (menu_try ydl d mk p s) = Value v -> read <> []) /\
    (fst (menu_try ydl d mk p s) = Value Break ->
       exists typed, read = [typed] /\ strip typed = "0") /\
    (new <> [] ->
       exists c u rest out s1,
         stdin s = c :: u :: rest /\
         In (strip c) ["1"; "2"; "3"] /\
         strip u <> "" /\
         stdin s1 = rest /\ fs s1 = fs s /\
         fst (get_output_path d mk s1) = Value (Some out) /\
         fs (snd (menu_try ydl d mk p s)) = fs (snd (get_output_path d mk s1)) /\
         Forall (fun o => outtmpl o = os_path_join out template) new).
Proof.
  assert (Hnone : forall (l : list YdlOpts), l = (l ++ [])%list)
    by (intros; symmetry; apply app_nil_r).
  unfold menu_try.
  pose proof (input_facts (NL ++ "Digite sua escolha (0-3): ") s) as Hi.
  destruct (input _ s) as [[typed|e] s1]; cbn [fst snd] in Hi;
    destruct Hi as [Hc1 [Hf1 Hs1]].
  2:{ destruct Hs1 as [_ [Hs Hs']].
      exists [], []; cbn [fst snd]; rewrite Hs, Hs', Hc1.
      repeat split; auto; try discriminate; congruence. }
  destruct (strip typed =? "0") eqn:Hz.
  { apply String.eqb_eq in Hz.
    exists [typed], []; cbn [fst snd prog stdin with_prog].
    rewrite Hs1; unfold print; rewrite calls_print_end, Hc1.
    repeat split; auto; try discriminate; try congruence.
    intros _; exists typed; split; trivial. }
  destruct (existsb (String.eqb (strip typed)) ["1"; "2"; "3"]) eqn:Hch.
  2:{ exists [typed], []; cbn [fst snd prog stdin with_prog].
      rewrite Hs1; unfold print; rewrite calls_print_end, Hc1.
      repeat split; auto; try discriminate; congruence. }
  assert (Hin : In (strip typed) ["1"; "2"; "3"]).
  { apply existsb_exists in Hch; destruct Hch as [x [Hx Hex]].
    apply String.eqb_eq in Hex; subst x; exact Hx. }
  pose proof (get_url_facts s1) as Hu.
  destruct (get_url s1) as [[url|e] s2]; cbn [fst snd] in Hu;
    destruct Hu as [Hc2 [Hf2 Hs2]].
  2:{ destruct Hs2 as [_ [Hs Hs']].
      exists [typed], []; cbn [fst snd]; rewrite Hs1, Hs, Hs', Hc2, Hc1.
      repeat split; auto; try discriminate; congruence. }
  destruct Hs2 as [u [Hs2 ->]].
  destruct (strip u =? "") eqn:Hue.
  { exists [typed; u], []; cbn [fst snd prog stdin with_prog].
    rewrite Hs1, Hs2; unfold print; rewrite calls_print_end, Hc2, Hc1.
    repeat split; auto; try discriminate; congruence. }
  apply String.eqb_neq in Hue.
  unfold get_output_path.
  destruct (ask_consumes d mk (stdin s2) (fs s2) (prog s2))
    as [Hc3 [read3 [Hr3 _]]].
  destruct (get_output_path_from d mk (stdin s2) (fs s2) (prog s2))
    as [[[out|]|e] s3] eqn:Hask; cbn [fst snd] in *.
  - destruct (download_choice_calls (strip typed) (strip u) out p
                (if falsy p
                 then print "⚠️ Aviso: O caminho do ffmpeg não está disponível. Tentando continuar mesmo assim..."
                            (prog s3)
                 else prog s3)) as [new [Hn [Hne Hall]]].
    assert (Hst : calls (if falsy p
                 then print "⚠️ Aviso: O caminho do ffmpeg não está disponível. Tentando continuar mesmo assim..."
                            (prog s3)
                 else prog s3) = calls (prog s))
      by (destruct (falsy p); unfold print; rewrite ?calls_print_end; congruence).
    rewrite Hst in Hn.
    exists (typed :: u :: read3), new.
    destruct (download_choice ydl (strip typed) (strip u) out p _)
      as [[e|] st'] eqn:Hd; cbn [fst snd prog stdin fs with_prog] in *.
    + split; [rewrite Hs1, Hs2, Hr3; reflexivity|].
      split; [exact Hn|].
      split; [revert Hall; apply Forall_impl; intros o [H _]; exact H|].
      split; [discriminate|]. split; [discriminate|].
      intros _; exists typed, u, (stdin s2), out, s2.
      rewrite Hs1, Hs2; unfold get_output_path; rewrite Hask.
      repeat split; auto; try congruence.
      revert Hall; apply Forall_impl; intros o [_ H]; exact H.
    + split; [rewrite Hs1, Hs2, Hr3; reflexivity|].
      split; [exact Hn|].
      split; [revert Hall; apply Forall_impl; intros o [H _]; exact H|].
      split; [discriminate|]. split; [discriminate|].
      intros _; exists typed, u, (stdin s2), out, s2.
      rewrite Hs1, Hs2; unfold get_output_path; rewrite Hask.
      repeat split; auto; try congruence.
      revert Hall; apply Forall_impl; intros o [_ H]; exact H.
  - exists (typed :: u :: read3), [].
    rewrite Hs1, Hs2, Hr3, Hc3, Hc2, Hc1.
    repeat split; auto; try discriminate; congruence.
  - exists (typed :: u :: read3), [].
    rewrite Hs1, Hs2, Hr3, Hc3, Hc2, Hc1.
    repeat split; auto; try discriminate; congruence.
Qed.


End MenuProperties.

Section MenuLoop.

Variable ydl : Service.
Variable d : string.
Variable mk : Makedirs.

#[local] Abbreviation loop fuel p s := (main_menu_loop ydl d mk fuel p s).

(** The session a turn of the menu leaves. *)
Lemma menu_turn_facts p s :
  exists new,
    Forall (fun o => ffmpeg_location o = p) new /\
    match menu_turn ydl d mk p s with
    | inl (Left, s') =>
        calls (prog s') = (calls (prog s) ++ new)%list /\
        exists typed, stdin s = typed :: stdin s' /\ strip typed = "0"
    | inl (Escaped e, s') =>
        calls (prog s') = (calls (prog s) ++ new)%list /\
        (is_Exception e = false \/ (e = exn_EOFError /\ stdin s' = []))
    | inl (OutOfFuel, _) => False
    | inr s' =>
        calls (prog s') = (calls (prog s) ++ new)%list /\
        exists read, read <> [] /\ stdin s = (read ++ stdin s')%list
    end.
Proof.
  unfold menu_turn.
  set (s0 := with_prog (print_menu (prog s)) s).
  assert (Hs0 : stdin s0 = stdin s) by reflexivity.
  assert (Hc0 : calls (prog s0) = calls (prog s)) by reflexivity.
  destruct (menu_try_facts ydl d mk p s0)
    as [read [new [Hr [Hc [Hall [Hval [Hbrk _]]]]]]].
  exists new; split; [exact Hall|].
  rewrite Hs0 in Hr; rewrite Hc0 in Hc.
  assert (Hpress : forall s1,
    stdin s = (read ++ stdin s1)%list ->
    calls (prog s1) = (calls (prog s) ++ new)%list ->
    match
      match input (NL ++ "Pressione Enter para continuar...") s1 with
      | (Value _, s2) => inr s2
      | (Propagated e, s2) => inl (Escaped e, s2)
      end
    with
    | inl (Left, s') =>
        calls (prog s') = (calls (prog s) ++ new)%list /\
        exists typed, stdin s = typed :: stdin s' /\ strip typed = "0"
    | inl (Escaped e, s') =>
        calls (prog s') = (calls (prog s) ++ new)%list /\
        (is_Exception e = false \/ (e = exn_EOFError /\ stdin s' = []))
    | inl (OutOfFuel, _) => False
    | inr s' =>
        calls (prog s') = (calls (prog s) ++ new)%list /\
        exists read, read <> [] /\ stdin s = (read ++ stdin s')%list
    end).
  { intros s1 Hr1 Hc1.
    pose proof (input_facts (NL ++ "Pressione Enter para continuar...") s1)
      as Hi.
    destruct (input _ s1) as [[typed|e] s2]; cbn [fst snd] in Hi;
      destruct Hi as [Hc2 [_ Hs2]].
    - split; [congruence|].
      exists (read ++ [typed])%list; split.
      + intros H; apply app_eq_nil in H; destruct H; discriminate.
      + rewrite Hr1, Hs2, <- app_assoc; reflexivity.
    - destruct Hs2 as [-> [_ Hs2]].
      split; [congruence|right; split; trivial]. }
  destruct (menu_try ydl d mk p s0) as [[[| |]|e] s1] eqn:Htry;
    cbn [fst snd] in *.
  - split; [exact Hc|].
    destruct (Hbrk eq_refl) as [typed [-> Hz]].
    exists typed; split; trivial.
  - split; [exact Hc|].
    exists read; split; [eapply Hval; reflexivity|exact Hr].
  - apply Hpress; assumption.
  - destruct (is_Exception e) eqn:Hx.
    + apply Hpress; [exact Hr|].
      cbn [prog with_prog]; unfold print; rewrite calls_print_end; exact Hc.
    + split; [exact Hc|left; exact Hx].
Qed.

Lemma menu_turn_shortens p s s' :
  menu_turn ydl d mk p s = inr s' ->
  List.length (stdin s') < List.length (stdin s).
Proof.
  intros H; destruct (menu_turn_facts p s) as [new [_ Hf]].
  rewrite H in Hf; destruct Hf as [_ [read [Hne ->]]].
  rewrite length_app; destruct read; [congruence|simpl; lia].
Qed.

(** How the loop can end, and what it has requested by then. *)
Lemma loop_outcome fuel : forall p s,
  exists new,
    calls (prog (snd (loop fuel p s))) = (calls (prog s) ++ new)%list /\
    Forall (fun o => ffmpeg_location o = p) new /\
    match fst (loop fuel p s) with
    | Left =>
        exists before typed,
          stdin s = (before ++ typed :: stdin (snd (loop fuel p s)))%list /\
          strip typed = "0"
    | Escaped e =>
        is_Exception e = false \/
        (e = exn_EOFError /\ stdin (snd (loop fuel p s)) = [])
    | OutOfFuel => fuel <= List.length (stdin s)
    end.
Proof.
  induction fuel as [|fuel IH]; intros p s.
  - exists []; cbn [main_menu_loop fst snd].
    split; [symmetry; apply app_nil_r|split; [constructor|lia]].
  - cbn [main_menu_loop].
    destruct (menu_turn_facts p s) as [new [Hall Hf]].
    pose proof (menu_turn_shortens p s) as Hshort.
    destruct (menu_turn ydl d mk p s) as [[[|e|] s']|s'].
    + destruct Hf as [Hc [typed [Hs Hz]]].
      exists new; cbn [fst snd]; split; [exact Hc|split; [exact Hall|]].
      exists [], typed; split; trivial.
    + destruct Hf as [Hc He].
      exists new; cbn [fst snd]; split; [exact Hc|split; [exact Hall|exact He]].
    + contradiction.
    + destruct Hf as [Hc [read [_ Hr]]].
      specialize (Hshort s' eq_refl).
      destruct (IH p s') as [new' [Hc' [Hall' Hend]]].
      exists (new ++ new')%list; split; [rewrite Hc', Hc, app_assoc; reflexivity|].
      split; [apply Forall_app; split; assumption|].
      destruct (fst (loop fuel p s')) as [|e|].
      * destruct Hend as [before [typed [Hs Hz]]].
        exists (read ++ before)%list, typed; split; [|exact Hz].
        rewrite Hr, Hs, <- app_assoc; reflexivity.
      * exact Hend.
      * lia.
Qed.

Lemma loop_fuel_irrelevant f1 : forall f2 p s,
  List.length (stdin s) < f1 ->
  List.length (stdin s) < f2 ->
  loop f1 p s = loop f2 p s.
Proof.
  induction f1 as [|f1 IH]; intros [|f2] p s H1 H2; try lia.
  cbn [main_menu_loop].
  pose proof (menu_turn_shortens p s) as Hshort.
  destruct (menu_turn ydl d mk p s) as [done|s']; [reflexivity|].
  specialize (Hshort s' eq_refl); apply IH; lia.
Qed.

Lemma get_ffmpeg_path_facts construct home0 fs0 st :
  calls (snd (get_ffmpeg_path construct home0 fs0 st)) = calls st /\
  forall e, fst (get_ffmpeg_path construct home0 fs0 st) = Propagated e ->
            is_Exception e = false.
Proof.
  unfold get_ffmpeg_path.
  destruct construct as [e|ff].
  - destruct (is_Exception e) eqn:Hx; cbn [fst snd].
    + split; [reflexivity|discriminate].
    + split; [reflexivity|intros e' H; injection H as <-; exact Hx].
  - destruct (ffmpeg_bin ff); [split; [reflexivity|discriminate]|].
    destruct (_FFmpeg__ff_bin ff); [split; [reflexivity|discriminate]|].
    destruct (path_exists fs0 _); split; try reflexivity; discriminate.
Qed.

Lemma resolve_ffmpeg_facts env s :
  calls (prog (snd (resolve_ffmpeg env s))) = calls (prog s) /\
  stdin (snd (resolve_ffmpeg env s)) = stdin s /\
  forall e, fst (resolve_ffmpeg env s) = Propagated e ->
            is_Exception e = false \/ fst (pip_reinstall env (fs s)) = Some e.
Proof.
  unfold resolve_ffmpeg.
  destruct (get_ffmpeg_path_facts (first_construct env) (home env) (fs s)
              (prog s)) as [Hc1 Hp1].
  destruct (get_ffmpeg_path (first_construct env) (home env) (fs s) (prog s))
    as [[p1|e1] st1]; cbn [fst snd] in *.
  2:{ repeat split; trivial.
      intros e H; injection H as <-; left; apply Hp1; reflexivity. }
  destruct (falsy p1).
  2:{ repeat split; trivial; discriminate. }
  destruct (pip_reinstall env (fs s)) as [[e|] fs1]; cbn [fst snd].
  { repeat split; trivial.
    intros e' H; injection H as <-; right; reflexivity. }
  match goal with
  | |- context [get_ffmpeg_path ?c ?h ?f ?st0] =>
      destruct (get_ffmpeg_path_facts c h f st0) as [Hc2 Hp2];
      destruct (get_ffmpeg_path c h f st0) as [[p2|e2] st2]
  end; cbn [fst snd prog stdin] in *.
  - repeat split; trivial; [|discriminate].
    destruct (falsy p2); unfold print in *; rewrite ?calls_print_end in *;
      congruence.
  - repeat split; trivial; [|intros e H; injection H as <-; left;
                             apply Hp2; reflexivity].
    unfold print in *; rewrite ?calls_print_end in *; congruence.
Qed.



(** X13: on an input that is a list of lines followed by the end of the
    input, the loop of [main_menu] cannot go round for ever.  Every turn
    that goes round again has read at least one of the lines that were
    left; so with more turns allowed than there are lines the loop ends
    before the turns are used up, allowing still more turns changes
    nothing, and [main_menu], which allows one turn more than there are
    lines, never uses them up. *)
Theorem main_menu_ends_on_finite_input env p s :
  (forall s', menu_turn ydl d mk p s = inr s' ->
     exists read, read <> [] /\ stdin s = (read ++ stdin s')%list) /\
  (forall fuel, List.length (stdin s) < fuel ->
     fst (main_menu_loop ydl d mk fuel p s) <> OutOfFuel /\
     main_menu_loop ydl d mk fuel p s
     = main_menu_loop ydl d mk (S (List.length (stdin s))) p s) /\
  fst (main_menu ydl d mk env s) <> OutOfFuel.
Proof.
  split; [|split].
  - intros s' H; destruct (menu_turn_facts p s) as [new [_ Hf]].
    rewrite H in Hf; destruct Hf as [_ Hread]; exact Hread.
  - intros fuel Hfuel; split.
    + destruct (loop_outcome fuel p s) as [_ [_ [_ H]]].
      destruct (fst (loop fuel p s)); try discriminate; lia.
    + apply loop_fuel_irrelevant; lia.
  - unfold main_menu.
    destruct (resolve_ffmpeg env s) as [[p0|e] s0]; [|discriminate].
    destruct (loop_outcome (S (List.length (stdin s0))) p0 s0) as [_ [_ [_ H]]].
    destruct (fst (loop _ p0 s0)); try discriminate; lia.
Qed.


(** X15: one run of [main_menu] uses one ffmpeg path.  Every download
    requested during the run carries, as [ffmpeg_location], the path found
    at the start, also when none was found ([None]). *)
Theorem main_menu_uses_resolved_ffmpeg env s p s0 :
  resolve_ffmpeg env s = (Value p, s0) ->
  exists new,
    calls (prog (snd (main_menu ydl d mk env s))) = (calls (prog s) ++ new)%list /\
    Forall (fun o => ffmpeg_location o = p) new.
Proof.
  intros Hres; unfold main_menu.
  destruct (resolve_ffmpeg_facts env s) as [Hc _].
  rewrite Hres in *; cbn [fst snd] in *.
  destruct (loop_outcome (S (List.length (stdin s0))) p s0)
    as [new [Hn [Hall _]]].
  exists new; split; [rewrite Hn, Hc; reflexivity|exact Hall].
Qed.

(** X16: nothing is downloaded on incomplete input.  If the body of a
    turn of the menu makes any request, then the choice read was "1", "2"
    or "3", the next line read was a URL that is not empty, and
    [get_output_path], asked next, returned a folder; every request of the
    turn writes into that folder, with the template of the program, and
    the file system is as [get_output_path] left it. *)
Theorem downloads_need_complete_input p s :
  calls (prog (snd (menu_try ydl d mk p s))) <> calls (prog s) ->
  exists c u rest out s1 new,
    stdin s = c :: u :: rest /\
    In (strip c) ["1"; "2"; "3"] /\
    strip u <> "" /\
    stdin s1 = rest /\ fs s1 = fs s /\
    fst (get_output_path d mk s1) = Value (Some out) /\
    fs (snd (menu_try ydl d mk p s)) = fs (snd (get_output_path d mk s1)) /\
    calls (prog (snd (menu_try ydl d mk p s))) = (calls (prog s) ++ new)%list /\
    Forall (fun o => outtmpl o = os_path_join out "%(title)s.%(ext)s") new.
Proof.
  intros Hchanged.
  destruct (menu_try_facts ydl d mk p s) as [read [new [_ [Hc [_ [_ [_ Hnew]]]]]]].
  assert (Hne : new <> []).
  { intros ->; apply Hchanged; rewrite Hc; apply app_nil_r. }
  destruct (Hnew Hne) as [c [u [rest [out [s1 H]]]]].
  exists c, u, rest, out, s1, new; intuition.
Qed.

End MenuLoop.

(** ** The added properties at concrete inputs *)

(** X2 when the user interrupts the second attempt of [download_video]. *)
Lemma interrupt_gets_out_witness :
  nth_error format_attempts 1 = Some fmt_video_second /\
  List.length (calls initial_state) + 1
  < List.length
      (calls (snd (download_loop ydl_interrupted_second VideoBest
                     format_attempts example_url example_out example_ff
                     initial_state))) /\
  result (ydl_interrupted_second (List.length (calls initial_state) + 1)
            (mode_opts VideoBest example_out example_ff fmt_video_second)
            [example_url]) = Raised exn_KeyboardInterrupt /\
  is_Exception exn_KeyboardInterrupt = false /\
  fst (download_loop ydl_interrupted_second VideoBest format_attempts
         example_url example_out example_ff initial_state)
  = Some exn_KeyboardInterrupt.
Proof.
  assert (H1 : nth_error format_attempts 1 = Some fmt_video_second)
    by reflexivity.
  assert (H2 : List.length (calls initial_state) + 1
               < List.length
                   (calls (snd (download_loop ydl_interrupted_second VideoBest
                                  format_attempts example_url example_out
                                  example_ff initial_state))))
    by (vm_compute; lia).
  repeat (split; [first [exact H1|exact H2|reflexivity]|]).
  apply (interrupt_gets_out ydl_interrupted_second VideoBest example_url
           example_out example_ff format_attempts initial_state 1
           fmt_video_second exn_KeyboardInterrupt H1 H2 eq_refl eq_refl).
Defined.

(** X3 after a download whose postprocessing fails. *)
Lemma at_most_one_renderer_witness :
  coherent initial_state /\
  List.length
    (alive (snd (download_audio ydl_postprocessing_fails example_url
                   example_out example_ff initial_state))) <= 1.
Proof.
  split; [exact coherent_initial|].
  apply (at_most_one_renderer ydl_postprocessing_fails example_url example_out
           example_ff initial_state coherent_initial).
Defined.

(** X4 for a request during which postprocessing starts and never
    finishes: one thread started, no mark printed. *)
Lemma spinner_accounting_witness :
  standard_hooks (audio_opts example_out example_ff) /\
  spawned (snd (YoutubeDL_download ydl_postprocessing_fails
                  (audio_opts example_out example_ff) [example_url]
                  initial_state)) = 0 + 1.
Proof.
  assert (H : standard_hooks (audio_opts example_out example_ff))
    by (split; reflexivity).
  split; [exact H|].
  apply (spinner_accounting ydl_postprocessing_fails
           (audio_opts example_out example_ff) [example_url] initial_state H).
Defined.

(** X5 from the initial state. *)
Lemma start_then_stop_round_trip_witness :
  coherent initial_state /\
  spinner_running initial_state = false /\
  alive (stop_spinner (start_spinner initial_state)) = [].
Proof.
  split; [exact coherent_initial|split; [reflexivity|]].
  apply (start_then_stop_round_trip initial_state coherent_initial eq_refl).
Defined.

(** X6 for six turns: the sixth frame is the second of the four. *)
Lemma renderer_cycles_through_frames_witness :
  5 < 6 /\
  5 mod 4 < List.length frames /\
  nth 5 (fst (_spinner_loop_turns 6 0)) ""
  = CR ++ (C_CYAN ++ "Segura a onda que vai rolar")
       ++ nth (5 mod 4) frames "" ++ "   " ++ C_RESET.
Proof.
  assert (H : 5 < 6) by lia.
  split; [exact H|].
  destruct (renderer_cycles_through_frames 6) as [_ [_ Hall]].
  exact (Hall 5 H).
Defined.

(** X7 for a folder with a space in its name. *)
Lemma clean_path_round_trips_witness :
  plain_path example_music = true /\
  clean_path (escape_spaces example_music) = example_music.
Proof.
  split; [reflexivity|].
  apply (clean_path_round_trips example_music eq_refl).
Defined.

(** X8 when a wrong path is followed by " 0 ". *)
Lemma output_path_none_means_cancel_witness :
  fst (get_output_path_from example_out makedirs_creates
         ["/nope"; " 0 "; "unread"] (fs_with []) initial_state)
  = Value None /\
  exists before typed,
    ["/nope"; " 0 "; "unread"]
    = (before
       ++ typed
          :: stdin (snd (get_output_path_from example_out makedirs_creates
                           ["/nope"; " 0 "; "unread"] (fs_with [])
                           initial_state)))%list /\
    strip typed = "0" /\
    Forall (fun l => strip l <> "0") before.
Proof.
  split; [reflexivity|].
  apply (output_path_none_means_cancel example_out makedirs_creates
           ["/nope"; " 0 "; "unread"] (fs_with []) initial_state eq_refl).
Defined.

(** X9 when Enter is pressed and the Downloads folder is missing. *)
Lemma output_path_is_a_directory_witness :
  creates_directories makedirs_creates /\
  fst (get_output_path_from example_out makedirs_creates [""] (fs_with [])
         initial_state) = Value (Some example_out) /\
  isdir
    (fs (snd (get_output_path_from example_out makedirs_creates [""]
                (fs_with []) initial_state))) example_out = true.
Proof.
  assert (H : creates_directories makedirs_creates).
  { intros f p f' Hm; injection Hm as <-; simpl.
    rewrite String.eqb_refl; reflexivity. }
  split; [exact H|split; [reflexivity|]].
  apply (output_path_is_a_directory example_out makedirs_creates [""]
           (fs_with []) initial_state example_out H eq_refl).
Defined.

(** X10 when the Downloads folder exists but is not what the user types. *)
Lemma output_path_only_creates_default_witness :
  path_exists (fs_with [example_out]) example_out = true /\
  fs (snd (get_output_path_from example_out makedirs_denied
             ["/nope"; "0"] (fs_with [example_out]) initial_state))
  = fs_with [example_out].
Proof.
  split; [reflexivity|].
  apply (output_path_only_creates_default example_out makedirs_denied
           ["/nope"; "0"] (fs_with [example_out]) initial_state).
  reflexivity.
Defined.


(** X12 for a folder dragged into the terminal. *)
Lemma existing_folder_is_accepted_witness :
  plain_path example_music = true /\
  example_music <> "" /\ example_music <> "0" /\
  isdir (fs_with [example_music]) example_music = true /\
  starts_with_space example_music = false /\
  ends_with_space example_music = false /\
  fst (get_output_path_from example_out makedirs_denied
         [escape_spaces example_music; "unread"]
         (fs_with [example_music]) initial_state)
  = Value (Some example_music).
Proof.
  assert (H1 : example_music <> "") by discriminate.
  assert (H2 : example_music <> "0") by discriminate.
  split; [reflexivity|split; [exact H1|split; [exact H2|]]].
  repeat (split; [reflexivity|]).
  apply (existing_folder_is_accepted example_out makedirs_denied example_music
           (escape_spaces example_music) ["unread"]
           (fs_with [example_music]) initial_state eq_refl H1 H2 eq_refl).
  right; split; [reflexivity|split; [reflexivity|]].
  right; left; reflexivity.
Defined.

(** X13 for a user who types a wrong choice, presses Enter and then
    leaves: the first turn goes round again, two lines shorter. *)
Lemma main_menu_ends_on_finite_input_witness :
  menu_turn ydl_second_succeeds example_out makedirs_creates example_ff
    (session ["9"; ""; "0"] [])
  = inr (session_after
           (menu_turn ydl_second_succeeds example_out makedirs_creates
              example_ff (session ["9"; ""; "0"] []))) /\
  (exists read,
     read <> [] /\
     stdin (session ["9"; ""; "0"] [])
     = (read ++ stdin (session_after
                         (menu_turn ydl_second_succeeds example_out
                            makedirs_creates example_ff
                            (session ["9"; ""; "0"] []))))%list) /\
  List.length (stdin (session ["9"; ""; "0"] [])) < 7 /\
  fst (main_menu_loop ydl_second_succeeds example_out makedirs_creates 7
         example_ff (session ["9"; ""; "0"] [])) <> OutOfFuel /\
  main_menu_loop ydl_second_succeeds example_out makedirs_creates 7
    example_ff (session ["9"; ""; "0"] [])
  = main_menu_loop ydl_second_succeeds example_out makedirs_creates
      (S (List.length (stdin (session ["9"; ""; "0"] [])))) example_ff
      (session ["9"; ""; "0"] []).
Proof.
  assert (Hturn : menu_turn ydl_second_succeeds example_out makedirs_creates
                    example_ff (session ["9"; ""; "0"] [])
                  = inr (session_after
                           (menu_turn ydl_second_succeeds example_out
                              makedirs_creates example_ff
                              (session ["9"; ""; "0"] []))))
    by reflexivity.
  assert (Hfuel : List.length (stdin (session ["9"; ""; "0"] [])) < 7)
    by (simpl; lia).
  split; [exact Hturn|].
  split; [|split; [exact Hfuel|]].
  - apply (proj1 (main_menu_ends_on_finite_input ydl_second_succeeds
                    example_out makedirs_creates pyffmpeg_missing example_ff
                    (session ["9"; ""; "0"] [])) _ Hturn).
  - apply (proj1 (proj2 (main_menu_ends_on_finite_input ydl_second_succeeds
                           example_out makedirs_creates pyffmpeg_missing
                           example_ff (session ["9"; ""; "0"] []))) 7 Hfuel).
Defined.


(** X15 when ffmpeg cannot be found: the audio download is requested with
    no ffmpeg path. *)
Lemma main_menu_uses_resolved_ffmpeg_witness :
  resolve_ffmpeg pyffmpeg_missing (session ["1"; "u"; ""; ""; "0"] [])
  = (Value None,
     snd (resolve_ffmpeg pyffmpeg_missing
            (session ["1"; "u"; ""; ""; "0"] []))) /\
  exists new,
    calls (prog (snd (main_menu ydl_second_succeeds example_out
                        makedirs_creates pyffmpeg_missing
                        (session ["1"; "u"; ""; ""; "0"] []))))
    = (calls (prog (session ["1"; "u"; ""; ""; "0"] [])) ++ new)%list /\
    Forall (fun o => ffmpeg_location o = None) new.
Proof.
  assert (H : resolve_ffmpeg pyffmpeg_missing
                (session ["1"; "u"; ""; ""; "0"] [])
              = (Value None,
                 snd (resolve_ffmpeg pyffmpeg_missing
                        (session ["1"; "u"; ""; ""; "0"] []))))
    by reflexivity.
  split; [exact H|].
  apply (main_menu_uses_resolved_ffmpeg ydl_second_succeeds example_out
           makedirs_creates pyffmpeg_missing
           (session ["1"; "u"; ""; ""; "0"] []) None _ H).
Defined.

(** X16 for an audio download into an existing folder. *)
Lemma downloads_need_complete_input_witness :
  calls (prog (snd (menu_try ydl_postprocessing_fails example_out
                      makedirs_denied example_ff
                      (session ["1"; " https://youtu.be/x "; example_music]
                         [example_music]))))
  <> calls (prog (session ["1"; " https://youtu.be/x "; example_music]
                    [example_music])) /\
  exists c u rest out s1 new,
    stdin (session ["1"; " https://youtu.be/x "; example_music]
             [example_music]) = c :: u :: rest /\
    In (strip c) ["1"; "2"; "3"] /\
    strip u <> "" /\
    stdin s1 = rest /\
    fs s1 = fs (session ["1"; " https://youtu.be/x "; example_music]
                  [example_music]) /\
    fst (get_output_path example_out makedirs_denied s1) = Value (Some out) /\
    fs (snd (menu_try ydl_postprocessing_fails example_out makedirs_denied
               example_ff
               (session ["1"; " https://youtu.be/x "; example_music]
                  [example_music])))
    = fs (snd (get_output_path example_out makedirs_denied s1)) /\
    calls (prog (snd (menu_try ydl_postprocessing_fails example_out
                        makedirs_denied example_ff
                        (session ["1"; " https://youtu.be/x "; example_music]
                           [example_music]))))
    = (calls (prog (session ["1"; " https://youtu.be/x "; example_music]
                      [example_music])) ++ new)%list /\
    Forall (fun o => outtmpl o = os_path_join out "%(title)s.%(ext)s") new.
Proof.
  assert (H : calls (prog (snd (menu_try ydl_postprocessing_fails example_out
                      makedirs_denied example_ff
                      (session ["1"; " https://youtu.be/x "; example_music]
                         [example_music]))))
              <> calls (prog (session ["1"; " https://youtu.be/x ";
                                       example_music] [example_music])))
    by (vm_compute; discriminate).
  split; [exact H|].
  apply (downloads_need_complete_input ydl_postprocessing_fails example_out
           makedirs_denied example_ff
           (session ["1"; " https://youtu.be/x "; example_music]
              [example_music]) H).
Defined.
